(** * BACnet typed values: boolean, status flags, object identifier

    Shallow embedding of [src/types/boolean/boolean.type.ts] (the three
    classes [BACnetBoolean], [BACnetStatusFlags], [BACnetObjectId]) over a
    JavaScript-like heap, together with the IO layer, the bit helpers and
    the Complex-ACK envelope they rely on. *)

From Stdlib Require Import ZArith Lia.
From stdpp Require Import base option list strings gmap.

Local Open Scope Z_scope.

(** ** JavaScript values *)

(** Primitive values held by the fields of payload objects.  Numbers are
    the integral ones ([Z]); the payload interfaces
    ([Interfaces.Type.StatusFlags], [Interfaces.Type.ObjectId]) declare
    boolean and number fields only, so strings and nested objects are not
    field values here. *)
Inductive Prim :=
| PUndefined
| PNull
| PBool (b : bool)
| PNumber (n : Z).

Global Instance Prim_eq_dec : EqDecision Prim.
Proof. solve_decision. Defined.

(** A location of the heap. *)
Definition loc := nat.

(** An argument or a result: a primitive or a reference to a heap cell. *)
Inductive Value :=
| VPrim (p : Prim)
| VRef (l : loc).

Global Instance Value_eq_dec : EqDecision Value.
Proof. solve_decision. Defined.

(** A plain object: its own enumerable properties. *)
Abbreviation Object := (gmap string Prim).

(** [o.f]: reading a property that is not there gives [undefined]. *)
Definition prop (o : Object) (f : string) : Prim := default PUndefined (o !! f).

(** [!!v] *)
Definition truthy (p : Prim) : bool :=
  match p with
  | PUndefined | PNull => false
  | PBool b => b
  | PNumber n => negb (n =? 0)
  end.

(** The number a primitive stands for where an integer is expected. *)
Definition to_number (p : Prim) : Z :=
  match p with
  | PUndefined | PNull => 0
  | PBool b => Z.b2z b
  | PNumber n => n
  end.

(** [a === b] on primitives. *)
Definition strict_eq (a b : Prim) : bool := bool_decide (a = b).

(** ** Enums *)

Module Enums.

(** The members of [Enums.PropertyType] the three classes name.  The enum
    is declared outside the embedded file; its numbers are parameters. *)
Record PropertyType := {
  boolean : Z;
  bitString : Z;
  objectIdentifier : Z;
}.

(** Modelled from the spec: [Enums.TagType], "class (0=application,
    1=context)". *)
Module TagType.
Definition application : Z := 0.
Definition context : Z := 1.
End TagType.

End Enums.

(** ** Utils.Typer *)

Module Typer.

(** Modelled from the spec: [Utils.Typer.getBit], the "get single bit"
    helper, least-significant-bit indexed. *)
Definition getBit (bitMap pos : Z) : Z :=
  Z.land (Z.shiftr bitMap pos) 1.

(** Modelled from the spec: [Utils.Typer.setBit], the "set single bit"
    helper: bit [pos] of the result is [bitValue], the others are those
    of [bitMap]. *)
Definition setBit (bitMap pos : Z) (bitValue : bool) : Z :=
  if bitValue then Z.lor bitMap (Z.shiftl 1 pos)
  else Z.ldiff bitMap (Z.shiftl 1 pos).

(** Modelled from the spec: [Utils.Typer.getBitRange],
    "getBitRange(word, startBit, widthBits) -> unsigned,
    least-significant-bit indexed". *)
Definition getBitRange (bitMap startPos len : Z) : Z :=
  Z.land (Z.shiftr bitMap startPos) (Z.ones len).

(** Modelled from the spec: [Utils.Typer.setBitRange], the "set bit
    range" helper: the [len] bits from [startPos] are replaced by the
    low [len] bits of [bitValue] (the object identifier is
    "(type<<22)|instance"). *)
Definition setBitRange (bitMap startPos len bitValue : Z) : Z :=
  Z.lor (Z.ldiff bitMap (Z.shiftl (Z.ones len) startPos))
        (Z.shiftl (Z.land bitValue (Z.ones len)) startPos).

End Typer.

(** ** Tags, typed values, IO cursors *)

(** [Interfaces.Tag]: the fields the classes read and write.  [value] is
    what the spec calls the tag's length/value subfield; the tag literal of
    [BACnetObjectId.writeValue] leaves it out. *)
Record Tag := {
  num : Z;
  type : Z;
  value : option Z;
}.

Global Instance Tag_eq_dec : EqDecision Tag.
Proof. solve_decision. Defined.

(** The two fields every class keeps ([BACnetTypeBase] subclasses):
    [tag] is undefined until a first [readValue]. *)
Record TypedValue (D : Type) := {
  tag : option Tag;
  data : D;
}.
Arguments tag {D} _.
Arguments data {D} _.

(** Modelled from the spec: [IOs.Reader], "sequential cursor over a fixed
    buffer with an internal position". *)
Record Reader := {
  buffer : list Z;
  offset : nat;
}.

(** Modelled from the spec: [IOs.Writer]; the model keeps the bytes written
    so far, in order (the capacity of the output buffer is not modelled). *)
Record Writer := {
  written : list Z;
}.

(** Modelled from the spec: [Interfaces.ReaderOptions]; the spec passes
    options to every read and gives them no effect. *)
Inductive ReaderOptions := DefaultOptions.

(** ** The heap *)

Inductive Cell :=
| CObject (o : Object)
| CReader (r : Reader)
| CWriter (w : Writer)
| CBoolean (i : TypedValue bool)
| CStatusFlags (i : TypedValue loc)
| CObjectId (i : TypedValue loc).

(** Cells are never freed; a new cell takes the next index. *)
Abbreviation Heap := (list Cell).

(** What a call can throw: [Errors.BACnet] with its message, the
    out-of-range error of a read past the buffer, the malformed-PDU error of
    the envelope decoder, and [IllTyped], which marks a call outside the
    declared parameter types (a reference to no cell, or to a cell of another
    kind than the parameter's): such a call is not followed any further. *)
Inductive Error :=
| BACnetError (message : string)
| OutOfRange
| MalformedPDU
| IllTyped.

Inductive Result (A : Type) :=
| Ok (a : A)
| Throw (e : Error).
Arguments Ok {A} _.
Arguments Throw {A} _.

(** A computation over a state [S] that may throw; the state a throw
    leaves behind is the state at the throw. *)
Definition ST (S A : Type) : Type := S → Result A * S.

Definition ret {S A} (a : A) : ST S A := λ s, (Ok a, s).
Definition throw {S A} (e : Error) : ST S A := λ s, (Throw e, s).
Definition bind {S A B} (m : ST S A) (k : A → ST S B) : ST S B :=
  λ s, match m s with
       | (Ok a, s') => k a s'
       | (Throw e, s') => (Throw e, s')
       end.

(** Whether running [m] from [s] ends in a throw. *)
Definition throws {S A} (m : ST S A) (s : S) : bool :=
  match m s with
  | (Throw _, _) => true
  | (Ok _, _) => false
  end.

Global Instance ST_ret {S} : MRet (ST S) := @ret S.
Global Instance ST_bind {S} : MBind (ST S) := λ A B k m, bind m k.

(** Computations over the heap. *)
Abbreviation M := (ST Heap).

(** [new], an object literal: a fresh cell. *)
Definition alloc (c : Cell) : M loc := λ h, (Ok (length h), h ++ [c]).

Definition load (l : loc) : M Cell :=
  λ h, match h !! l with
       | Some c => (Ok c, h)
       | None => (Throw IllTyped, h)
       end.

Definition store (l : loc) (c : Cell) : M unit := λ h, (Ok tt, <[l := c]> h).

(** ** IO: the byte cursors and the tag codec *)

Module IOs.

(** Modelled from the spec: [Reader.readUInt8], one byte at the position,
    which advances; "fails with an out-of-range error if a read exceeds
    buffer length". *)
Definition readUInt8 (opts : option ReaderOptions) : ST Reader Z :=
  λ r, match buffer r !! offset r with
       | Some b => (Ok b, {| buffer := buffer r; offset := S (offset r) |})
       | None => (Throw OutOfRange, r)
       end.

(** Modelled from the spec: [Reader.readUInt16BE], an unsigned 16-bit
    big-endian integer. *)
Definition readUInt16BE (opts : option ReaderOptions) : ST Reader Z :=
  λ r, match buffer r !! offset r, buffer r !! S (offset r) with
       | Some b1, Some b0 =>
           (Ok (Z.lor (Z.shiftl b1 8) b0),
            {| buffer := buffer r; offset := (offset r + 2)%nat |})
       | _, _ => (Throw OutOfRange, r)
       end.

(** Modelled from the spec: [Reader.readUInt32BE], an unsigned 32-bit
    big-endian integer. *)
Definition readUInt32BE (opts : option ReaderOptions) : ST Reader Z :=
  λ r, match buffer r !! offset r, buffer r !! (offset r + 1)%nat,
             buffer r !! (offset r + 2)%nat, buffer r !! (offset r + 3)%nat with
       | Some b3, Some b2, Some b1, Some b0 =>
           (Ok (Z.lor (Z.shiftl b3 24)
                  (Z.lor (Z.shiftl b2 16) (Z.lor (Z.shiftl b1 8) b0))),
            {| buffer := buffer r; offset := (offset r + 4)%nat |})
       | _, _, _, _ => (Throw OutOfRange, r)
       end.

(** Modelled from the spec: the tag codec's decode (§4.2): "high nibble =
    tag-number candidate, bit 3 = class bit, low 3 bits = length/value
    candidate. If number candidate = 15, read one more byte as the real
    number. If length candidate = 5, read one more byte: value 254 → read
    a further 2-byte length; value 255 → read a further 4-byte length;
    otherwise that byte is the length."  (A candidate of 6 or 7, of which
    the spec says nothing, is passed on as it is, as 0 to 4 are.) *)
Definition readTag (opts : option ReaderOptions) : ST Reader Tag :=
  b ← readUInt8 opts;
  let numCandidate := Z.shiftr b 4 in
  let class := Z.land (Z.shiftr b 3) 1 in
  let lvt := Z.land b 7 in
  n ← (if numCandidate =? 15 then readUInt8 opts else mret numCandidate);
  v ← (if lvt =? 5 then
         x ← readUInt8 opts;
         if x =? 254 then readUInt16BE opts
         else if x =? 255 then readUInt32BE opts
         else mret x
       else mret lvt);
  mret {| num := n; type := class; value := Some v |}.

(** Modelled from the spec: [Writer.writeUInt8]. *)
Definition writeUInt8 (v : Z) : ST Writer unit :=
  λ w, (Ok tt, {| written := written w ++ [v] |}).

(** Modelled from the spec: [Writer.writeUInt16BE]. *)
Definition writeUInt16BE (v : Z) : ST Writer unit :=
  λ w, (Ok tt, {| written := written w ++
                    [Z.land (Z.shiftr v 8) 255; Z.land v 255] |}).

(** Modelled from the spec: [Writer.writeUInt32BE]. *)
Definition writeUInt32BE (v : Z) : ST Writer unit :=
  λ w, (Ok tt, {| written := written w ++
                    [Z.land (Z.shiftr v 24) 255; Z.land (Z.shiftr v 16) 255;
                     Z.land (Z.shiftr v 8) 255; Z.land v 255] |}).

(** Modelled from the spec: [Writer.writeUIntValue], "an unsigned integer
    of 1–4 bytes", in as few bytes as hold it. *)
Definition writeUIntValue (v : Z) : ST Writer unit :=
  if v <=? 0xFF then writeUInt8 v
  else if v <=? 0xFFFF then writeUInt16BE v
  else if v <=? 0xFFFFFF then
    _ ← writeUInt8 (Z.land (Z.shiftr v 16) 255); writeUInt16BE v
  else writeUInt32BE v.

(** Modelled from the spec: the tag codec's encode (§4.2): "inline nibble
    when num≤14, else escape+extra byte; inline 3-bit length when ≤4,
    else escape + smallest of {1,2,4}-byte length using sentinel
    selection". *)
Definition writeTag (tagNumber tagType tagValue : Z) : ST Writer unit :=
  let nibble := if tagNumber <=? 14 then tagNumber else 15 in
  let lvt := if tagValue <=? 4 then tagValue else 5 in
  _ ← writeUInt8 (Z.lor (Z.shiftl nibble 4) (Z.lor (Z.shiftl tagType 3) lvt));
  _ ← (if tagNumber <=? 14 then mret tt else writeUInt8 tagNumber);
  if tagValue <=? 4 then mret tt
  else if tagValue <=? 253 then writeUInt8 tagValue
  else if tagValue <=? 65535 then
    _ ← writeUInt8 254; writeUInt16BE tagValue
  else
    _ ← writeUInt8 255; writeUInt32BE tagValue.

(** The four bytes [writeUInt32BE] appends, most significant first. *)
Definition uint32BEBytes (v : Z) : list Z :=
  written (writeUInt32BE v {| written := [] |}).2.

(** The bytes [writeTag] appends. *)
Definition tagBytes (tagNumber tagType tagValue : Z) : list Z :=
  written (writeTag tagNumber tagType tagValue {| written := [] |}).2.

End IOs.

(** A method call on the reader at [reader]: the cursor moves in place. *)
Definition withReader {A} (reader : loc) (m : ST Reader A) : M A :=
  λ h, match h !! reader with
       | Some (CReader r) =>
           let '(res, r') := m r in (res, <[reader := CReader r']> h)
       | _ => (Throw IllTyped, h)
       end.

(** A method call on the writer at [writer]. *)
Definition withWriter {A} (writer : loc) (m : ST Writer A) : M A :=
  λ h, match h !! writer with
       | Some (CWriter w) =>
           let '(res, w') := m w in (res, <[writer := CWriter w']> h)
       | _ => (Throw IllTyped, h)
       end.

(** The own enumerable properties of the value [v] in the heap [h], when
    [v] is a primitive (it has none) or refers to a plain object. *)
Definition payload (h : Heap) (v : Value) : option Object :=
  match v with
  | VPrim _ => Some ∅
  | VRef l => match h !! l with Some (CObject o) => Some o | _ => None end
  end.

(** ** lodash *)

Module lodash.

(** [_.isUndefined] *)
Definition isUndefined (v : Value) : bool :=
  match v with VPrim PUndefined => true | _ => false end.

(** [_.isNil] *)
Definition isNil (v : Value) : bool :=
  match v with VPrim PUndefined | VPrim PNull => true | _ => false end.

(** [_.isBoolean] *)
Definition isBoolean (v : Value) : bool :=
  match v with VPrim (PBool _) => true | _ => false end.

(** The own enumerable properties of [v]: those of the plain object it
    refers to; a primitive has none. *)
Definition ownProps (v : Value) : M Object :=
  match v with
  | VPrim _ => mret ∅
  | VRef l =>
      c ← load l;
      match c with CObject o => mret o | _ => throw IllTyped end
  end.

(** [_.has(v, key)]: [key] is an own property of [v]. *)
Definition has (v : Value) (key : string) : M bool :=
  o ← ownProps v; mret (bool_decide (is_Some (o !! key))).

(** [_.clone(v)]: a primitive is returned as is, a plain object is
    copied, property by property, into a new object. *)
Definition clone (v : Value) : M Value :=
  match v with
  | VPrim _ => mret v
  | VRef _ => o ← ownProps v; l ← alloc (CObject o); mret (VRef l)
  end.

(** [_.cloneDeep(v)]: as [clone]; the properties of a payload object are
    primitives, there is nothing further to descend into. *)
Definition cloneDeep (v : Value) : M Value := clone v.

(** [_.assign({}, defaults, v)]: a new object with the properties of
    [defaults], overwritten by the own properties of [v]. *)
Definition assign (defaults : Object) (v : Value) : M loc :=
  o ← ownProps v; alloc (CObject (o ∪ defaults)).

End lodash.

(** [s] between double quotes. *)
Definition quoted (s : string) : string :=
  String (Ascii.ascii_of_nat 34) (s +:+ String (Ascii.ascii_of_nat 34) EmptyString).

(** The plain object at [l]. *)
Definition object (l : loc) : M Object :=
  c ← load l;
  match c with CObject o => mret o | _ => throw IllTyped end.

(** [obj.f = p], a caller's assignment to a property of the object at
    [l]. *)
Definition assignField (l : loc) (f : string) (p : Prim) : M unit :=
  o ← object l; store l (CObject (<[f := p]> o)).

(** The primitive a possibly missing number stands for. *)
Definition optnum (v : option Z) : Prim := from_option PNumber PUndefined v.

(** ** BACnetBoolean *)

(** Each class below has its methods in the order of the source.  The
    static [readParam] (it defers to the base class) and the [value]
    accessors (they are [getValue] and [setValue]) have no definition of
    their own. *)

Module BACnetBoolean.
Section WithEnums.

Variable PropertyType : Enums.PropertyType.

(** [this], which a method call finds at its receiver. *)
Definition self (this : loc) : M (TypedValue bool) :=
  c ← load this;
  match c with CBoolean i => mret i | _ => throw IllTyped end.

(** [this.tag = t] *)
Definition set_tag (this : loc) (t : Tag) : M unit :=
  i ← self this; store this (CBoolean {| tag := Some t; data := data i |}).

(** [this.data = d] *)
Definition set_data (this : loc) (d : bool) : M unit :=
  i ← self this; store this (CBoolean {| tag := tag i; data := d |}).

(** The message of the error [checkAndGetValue] throws. *)
Definition updateValueMessage : string :=
  "BACnetBoolean - updateValue: Value must be of type "
  +:+ quoted "boolean" +:+ "!".

Definition checkAndGetValue (value : Value) : M bool :=
  if negb (lodash.isBoolean value) then
    throw (BACnetError updateValueMessage)
  else
    match value with VPrim (PBool b) => mret b | _ => throw IllTyped end.

(** [new BACnetBoolean(defValue)]; an absent argument is [undefined].
    The instance becomes reachable once its initialiser has returned. *)
Definition constructor (defValue : Value) : M loc :=
  d ← (if lodash.isUndefined defValue then mret false
       else checkAndGetValue defValue);
  alloc (CBoolean {| tag := None; data := d |}).

Definition readValue (this reader : loc) (opts : option ReaderOptions) : M unit :=
  tag ← withReader reader (IOs.readTag opts);
  _ ← set_tag this tag;
  if type tag =? Enums.TagType.application then
    set_data this (truthy (optnum (value tag)))
  else if type tag =? Enums.TagType.context then
    b ← withReader reader (IOs.readUInt8 opts);
    set_data this (truthy (PNumber b))
  else mret tt.

Definition writeValue (this writer : loc) : M unit :=
  i ← self this;
  withWriter writer
    (IOs.writeTag (Enums.boolean PropertyType) Enums.TagType.application
                  (Z.b2z (data i))).

Definition writeParam (this writer : loc) (tag : Tag) : M unit :=
  let dataSize := 1 in
  _ ← withWriter writer (IOs.writeTag (num tag) (type tag) dataSize);
  i ← self this;
  withWriter writer (IOs.writeUIntValue (Z.b2z (data i))).

Definition setValue (this : loc) (newValue : Value) : M unit :=
  d ← checkAndGetValue newValue;
  set_data this d.

Definition getValue (this : loc) : M bool :=
  i ← self this; mret (data i).

End WithEnums.
End BACnetBoolean.

(** ** BACnetStatusFlags *)

Module BACnetStatusFlags.
Section WithEnums.

Variable PropertyType : Enums.PropertyType.

Definition self (this : loc) : M (TypedValue loc) :=
  c ← load this;
  match c with CStatusFlags i => mret i | _ => throw IllTyped end.

Definition set_tag (this : loc) (t : Tag) : M unit :=
  i ← self this; store this (CStatusFlags {| tag := Some t; data := data i |}).

Definition set_data (this : loc) (d : loc) : M unit :=
  i ← self this; store this (CStatusFlags {| tag := tag i; data := d |}).

(** The defaults of [checkAndGetValue]. *)
Definition defaults : Object :=
  {[ "fault" := PBool false; "inAlarm" := PBool false;
     "outOfService" := PBool false; "overridden" := PBool false ]}.

Definition checkAndGetValue (value : Value) : M loc :=
  lodash.assign defaults value.

Definition constructor (defValue : Value) : M loc :=
  d ← checkAndGetValue defValue;
  alloc (CStatusFlags {| tag := None; data := d |}).

Definition readValue (this reader : loc) (opts : option ReaderOptions) : M unit :=
  tag ← withReader reader (IOs.readTag opts);
  _ ← set_tag this tag;
  unusedBits ← withReader reader (IOs.readUInt8 opts);
  value ← withReader reader (IOs.readUInt8 opts);
  let inAlarm := truthy (PNumber (Typer.getBit value 7)) in
  let fault := truthy (PNumber (Typer.getBit value 6)) in
  let overridden := truthy (PNumber (Typer.getBit value 5)) in
  let outOfService := truthy (PNumber (Typer.getBit value 4)) in
  d ← alloc (CObject {[ "inAlarm" := PBool inAlarm; "fault" := PBool fault;
                        "overridden" := PBool overridden;
                        "outOfService" := PBool outOfService ]});
  set_data this d.

Definition writeValue (this writer : loc) : M unit :=
  _ ← withWriter writer (IOs.writeTag (Enums.bitString PropertyType) 0 2);
  _ ← withWriter writer (IOs.writeUInt8 4);
  i ← self this;
  o ← object (data i);
  let statusFlags := 0 in
  let statusFlags := Typer.setBit statusFlags 7 (truthy (prop o "inAlarm")) in
  let statusFlags := Typer.setBit statusFlags 6 (truthy (prop o "fault")) in
  let statusFlags := Typer.setBit statusFlags 5 (truthy (prop o "overridden")) in
  let statusFlags := Typer.setBit statusFlags 4 (truthy (prop o "outOfService")) in
  withWriter writer (IOs.writeUInt8 statusFlags).

Definition setValue (this : loc) (newValue : Value) : M unit :=
  d ← checkAndGetValue newValue;
  set_data this d.

Definition getValue (this : loc) : M Value :=
  i ← self this; lodash.cloneDeep (VRef (data i)).

End WithEnums.
End BACnetStatusFlags.

(** ** BACnetObjectId *)

Module BACnetObjectId.
Section WithEnums.

Variable PropertyType : Enums.PropertyType.

Definition self (this : loc) : M (TypedValue loc) :=
  c ← load this;
  match c with CObjectId i => mret i | _ => throw IllTyped end.

Definition set_tag (this : loc) (t : Tag) : M unit :=
  i ← self this; store this (CObjectId {| tag := Some t; data := data i |}).

Definition set_data (this : loc) (d : loc) : M unit :=
  i ← self this; store this (CObjectId {| tag := tag i; data := d |}).

(** The message of the error [checkAndGetValue] throws. *)
Definition updateValueMessage : string :=
  "BACnetObjectId - updateValue: Value must be of type "
  +:+ quoted "object identifier" +:+ "!".

(** The value that passed the check is an object: a primitive has no own
    property. *)
Definition checkAndGetValue (value : Value) : M loc :=
  hasType ← lodash.has value "type";
  hasInstance ← lodash.has value "instance";
  if negb hasType || negb hasInstance then
    throw (BACnetError updateValueMessage)
  else
    match value with VRef l => mret l | VPrim _ => throw IllTyped end.

Definition constructor (defValue : Value) : M loc :=
  d ← (if lodash.isUndefined defValue then
         alloc (CObject {[ "type" := PNumber 0; "instance" := PNumber 0 ]})
       else
         c ← lodash.clone defValue; checkAndGetValue c);
  alloc (CObjectId {| tag := None; data := d |}).

Definition decodeObjectIdentifier (objId : Z) : M loc :=
  let objType := Typer.getBitRange objId 22 10 in
  let objInstance := Typer.getBitRange objId 0 22 in
  alloc (CObject {[ "type" := PNumber objType;
                    "instance" := PNumber objInstance ]}).

Definition encodeObjectIdentifier (objId : loc) : M Z :=
  o ← object objId;
  let encodedObjectIdentifier := 0 in
  let encodedObjectIdentifier :=
    Typer.setBitRange encodedObjectIdentifier 22 10 (to_number (prop o "type")) in
  let encodedObjectIdentifier :=
    Typer.setBitRange encodedObjectIdentifier 0 22 (to_number (prop o "instance")) in
  mret encodedObjectIdentifier.

Definition readValue (this reader : loc) (opts : option ReaderOptions) : M unit :=
  tag ← withReader reader (IOs.readTag opts);
  _ ← set_tag this tag;
  encodedObjId ← withReader reader (IOs.readUInt32BE opts);
  decodedObjId ← decodeObjectIdentifier encodedObjId;
  set_data this decodedObjId.

Definition writeParam (this writer : loc) (tag : Tag) : M unit :=
  let dataSize := 4 in
  _ ← withWriter writer (IOs.writeTag (num tag) (type tag) dataSize);
  i ← self this;
  objectIdentifier ← encodeObjectIdentifier (data i);
  withWriter writer (IOs.writeUInt32BE objectIdentifier).

Definition writeValue (this writer : loc) : M unit :=
  writeParam this writer
    {| num := Enums.objectIdentifier PropertyType;
       type := Enums.TagType.application;
       value := None |}.

Definition setValue (this : loc) (newValue : Value) : M unit :=
  c ← lodash.clone newValue;
  d ← checkAndGetValue c;
  set_data this d.

Definition getValue (this : loc) : M Value :=
  i ← self this; lodash.cloneDeep (VRef (data i)).

Definition isEqualObjectId (objId1 objId2 : Value) : M bool :=
  o1 ← lodash.ownProps objId1;
  o2 ← lodash.ownProps objId2;
  mret (strict_eq (prop o1 "type") (prop o2 "type")
        && strict_eq (prop o1 "instance") (prop o2 "instance")).

(** [data instanceof BACnetObjectId] is the kind of the cell [data]
    refers to; [typeof data === 'object'] holds of a reference. *)
Definition isEqual (this : loc) (data : Value) : M bool :=
  if lodash.isNil data then mret false
  else
    match data with
    | VRef l =>
        c ← load l;
        match c with
        | CObjectId _ =>
            a ← getValue this; b ← getValue l; isEqualObjectId a b
        | _ =>
            a ← getValue this; isEqualObjectId a data
        end
    | VPrim _ => mret false
    end.

End WithEnums.
End BACnetObjectId.

(** ** The Complex-ACK envelope *)

Module complexACKPDU.

(** Modelled from the spec: the decoded envelope (§3), "sequenceNumber/
    windowSize exist iff segmented". *)
Record Envelope := {
  pduType : Z;
  segmented : bool;
  moreFollows : bool;
  invokeId : Z;
  sequenceNumber : option Z;
  windowSize : option Z;
  serviceChoice : Z;
  serviceData : list Z;
}.

(** Modelled from the spec: the discriminant of a Complex-ACK, the high
    nibble of the scenario's first byte 0x30. *)
Definition ComplexACK : Z := 3.

(** The bytes from the position to the end of the buffer. *)
Definition remaining : ST Reader (list Z) :=
  λ r, (Ok (drop (offset r) (buffer r)),
        {| buffer := buffer r; offset := length (buffer r) `max` offset r |}).

(** Modelled from the spec: the envelope decoder (§4.6): "read 1 byte →
    high nibble = pduType; for this discriminant, bit 3 = segmented, bit 2 =
    more-follows; read 1 byte = invokeId; if segmented, read 2 more bytes =
    sequenceNumber, windowSize; read 1 byte = serviceChoice; remaining bytes
    to buffer end = serviceData". *)
Definition decode : ST Reader Envelope :=
  b ← IOs.readUInt8 None;
  let pduType := Z.shiftr b 4 in
  let seg := Z.testbit b 3 in
  let mor := Z.testbit b 2 in
  invokeId ← IOs.readUInt8 None;
  sw ← (if seg then
          s ← IOs.readUInt8 None; w ← IOs.readUInt8 None; mret (Some s, Some w)
        else mret (None, None));
  serviceChoice ← IOs.readUInt8 None;
  service ← remaining;
  mret {| pduType := pduType; segmented := seg; moreFollows := mor;
          invokeId := invokeId; sequenceNumber := sw.1; windowSize := sw.2;
          serviceChoice := serviceChoice; serviceData := service |}.

(** Modelled from the spec: [complexACKPDU.getFromBuffer], the decoder run
    from the start of the buffer; "a buffer shorter than the minimum length
    for the decoded pduType fails with a malformed-PDU error". *)
Definition getFromBuffer (buf : list Z) : Result Envelope :=
  match decode {| buffer := buf; offset := 0 |} with
  | (Ok e, _) => Ok e
  | (Throw _, _) => Throw MalformedPDU
  end.

(** The first buffer of [complex-ack.pdu.spec.ts]. *)
Definition test_buffer : list Z :=
  [0x30; 0x01; 0x0c; 0x0c; 0x02; 0x00; 0x00; 0x01; 0x19; 0x0c; 0x3e; 0x75;
   0x07; 0x00; 0x56; 0x31; 0x2e; 0x30; 0x2e; 0x30; 0x3f].

End complexACKPDU.

(** ** What the writers emit *)

(** The payload byte of [writeValue] for the stored flags [o]. *)
Definition statusByte (o : Object) : Z :=
  Typer.setBit
    (Typer.setBit
       (Typer.setBit (Typer.setBit 0 7 (truthy (prop o "inAlarm"))) 6
          (truthy (prop o "fault")))
       5 (truthy (prop o "overridden")))
    4 (truthy (prop o "outOfService")).

(** The word [writeParam] encodes for the stored identifier [o]. *)
Definition objectIdWord (o : Object) : Z :=
  Typer.setBitRange
    (Typer.setBitRange 0 22 10 (to_number (prop o "type")))
    0 22 (to_number (prop o "instance")).

(** ** Sample states *)

Module Examples.

(** An instance of [Enums.PropertyType] to run the classes on: the
    application tag numbers of boolean, bit string and object identifier. *)
Definition PropertyType : Enums.PropertyType :=
  {| Enums.boolean := 1; Enums.bitString := 8; Enums.objectIdentifier := 12 |}.

(** A [BACnetBoolean] holding [b], a reader over [buf], an empty writer. *)
Definition boolean_heap (b : bool) (buf : list Z) : Heap :=
  [CBoolean {| tag := None; data := b |};
   CReader {| buffer := buf; offset := 0 |};
   CWriter {| written := [] |}].

(** A [BACnetStatusFlags] whose stored flags are [o], a reader over [buf],
    an empty writer. *)
Definition status_heap (o : Object) (buf : list Z) : Heap :=
  [CStatusFlags {| tag := None; data := 1%nat |};
   CObject o;
   CReader {| buffer := buf; offset := 0 |};
   CWriter {| written := [] |}].

(** A bit string tag of context class (number 8, class bit set, length 2),
    the unused-bits byte 4, the payload 0x80. *)
Definition context_status_bytes : list Z := [0x8A; 0x04; 0x80].

(** Only [inAlarm] set. *)
Definition only_inAlarm : Object :=
  {[ "fault" := PBool false; "inAlarm" := PBool true;
     "outOfService" := PBool false; "overridden" := PBool false ]}.

(** A [BACnetObjectId] whose stored identifier is [o], a plain object [o2]
    of the caller, a second [BACnetObjectId] storing [o2], and an empty
    writer. *)
Definition objectId_heap (o o2 : Object) : Heap :=
  [CObjectId {| tag := None; data := 1%nat |};
   CObject o;
   CObject o2;
   CObjectId {| tag := None; data := 2%nat |};
   CWriter {| written := [] |}].

(** The identifier of object type [t], instance [i]. *)
Definition objectId (t i : Z) : Object :=
  {[ "type" := PNumber t; "instance" := PNumber i ]}.

(** A caller's payload that names a type and no instance. *)
Definition type_only : Object := {[ "type" := PNumber 8 ]}.

(** A caller's flags that name [inAlarm] only. *)
Definition inAlarm_only_given : Object := {[ "inAlarm" := PBool true ]}.

End Examples.

(** ** Further sample states *)

Module Scenarios.

(** A caller's flags: [inAlarm] given as [undefined], [fault] as 1,
    [overridden] as [true], [outOfService] left out. *)
Definition mixed_flags : Object :=
  {[ "inAlarm" := PUndefined; "fault" := PNumber 1; "overridden" := PBool true ]}.

(** A [BACnetStatusFlags] holding the defaults, a caller's object [o], an
    empty writer. *)
Definition flags_and_payload (o : Object) : Heap :=
  [CStatusFlags {| tag := None; data := 1%nat |};
   CObject BACnetStatusFlags.defaults;
   CObject o;
   CWriter {| written := [] |}].

(** A [BACnetObjectId] storing (0, 0), a caller's object [o], a second
    [BACnetObjectId] storing [o2], a reader over [buf], an empty writer. *)
Definition ids_and_payload (o o2 : Object) (buf : list Z) : Heap :=
  [CObjectId {| tag := None; data := 1%nat |};
   CObject {[ "type" := PNumber 0; "instance" := PNumber 0 ]};
   CObject o;
   CObjectId {| tag := None; data := 4%nat |};
   CObject o2;
   CReader {| buffer := buf; offset := 0 |};
   CWriter {| written := [] |}].

(** A caller's identifier whose [type] is [undefined] and whose [instance]
    is [null], with a property of its own besides. *)
Definition odd_identifier : Object :=
  {[ "type" := PUndefined; "instance" := PNull; "name" := PBool true ]}.

End Scenarios.

(** * Properties *)

#[local] Arguments Z.testbit : simpl never.
#[local] Arguments Z.shiftr : simpl never.
#[local] Arguments Z.shiftl : simpl never.
#[local] Arguments Z.land : simpl never.
#[local] Arguments Z.lor : simpl never.
#[local] Arguments Z.ldiff : simpl never.
#[local] Arguments Z.ones : simpl never.
#[local] Arguments Z.eqb : simpl never.
#[local] Arguments Z.leb : simpl never.

(** ** Running computations *)

Lemma bind_run {S A B} (m : ST S A) (k : A → ST S B) (s : S) :
  (m ≫= k) s = match m s with
               | (Ok a, s') => k a s'
               | (Throw e, s') => (Throw e, s')
               end.
Proof. reflexivity. Qed.

Lemma bind_ok {S A B} (m : ST S A) (k : A → ST S B) (s s' : S) (a : A) :
  m s = (Ok a, s') → (m ≫= k) s = k a s'.
Proof. intros E. rewrite bind_run, E. reflexivity. Qed.

Lemma bind_throw {S A B} (m : ST S A) (k : A → ST S B) (s s' : S) (e : Error) :
  m s = (Throw e, s') → (m ≫= k) s = (Throw e, s').
Proof. intros E. rewrite bind_run, E. reflexivity. Qed.

Lemma load_run (h : Heap) (l : loc) (c : Cell) :
  h !! l = Some c → load l h = (Ok c, h).
Proof. intros E. unfold load. rewrite E. reflexivity. Qed.

Lemma object_run (h : Heap) (l : loc) (o : Object) :
  h !! l = Some (CObject o) → object l h = (Ok o, h).
Proof. intros E. unfold object. rewrite (bind_ok _ _ _ _ _ (load_run _ _ _ E)). reflexivity. Qed.

Lemma withReader_run {A} (h : Heap) (reader : loc) (m : ST Reader A) (r : Reader) :
  h !! reader = Some (CReader r) →
  withReader reader m h = ((m r).1, <[reader := CReader (m r).2]> h).
Proof. intros E. unfold withReader. rewrite E. destruct (m r); reflexivity. Qed.

Lemma withWriter_run {A} (h : Heap) (writer : loc) (m : ST Writer A) (w : Writer) :
  h !! writer = Some (CWriter w) →
  withWriter writer m h = ((m w).1, <[writer := CWriter (m w).2]> h).
Proof. intros E. unfold withWriter. rewrite E. destruct (m w); reflexivity. Qed.

Lemma withReader_ok {A} (h : Heap) (reader : loc) (m : ST Reader A) r res r' :
  h !! reader = Some (CReader r) → m r = (res, r') →
  withReader reader m h = (res, <[reader := CReader r']> h).
Proof. intros E Hm. rewrite (withReader_run _ _ _ _ E), Hm. reflexivity. Qed.

Lemma withWriter_ok {A} (h : Heap) (writer : loc) (m : ST Writer A) w res w' :
  h !! writer = Some (CWriter w) → m w = (res, w') →
  withWriter writer m h = (res, <[writer := CWriter w']> h).
Proof. intros E Hm. rewrite (withWriter_run _ _ _ _ E), Hm. reflexivity. Qed.

Lemma readUInt8_ok opts (r : Reader) (b : Z) :
  buffer r !! offset r = Some b →
  IOs.readUInt8 opts r = (Ok b, {| buffer := buffer r; offset := S (offset r) |}).
Proof. intros E. unfold IOs.readUInt8. rewrite E. reflexivity. Qed.

(** A cell that is there stays there, whatever is stored elsewhere. *)
Lemma lookup_store_ne (h : Heap) (l l' : loc) (c c' : Cell) :
  h !! l = Some c → l ≠ l' → <[l' := c']> h !! l = Some c.
Proof. intros E N. rewrite list_lookup_insert_ne; auto. Qed.

Lemma lookup_store_eq (h : Heap) (l : loc) (c c' : Cell) :
  h !! l = Some c → <[l := c']> h !! l = Some c'.
Proof. intros E. apply list_lookup_insert_eq. eapply lookup_lt_Some; eauto. Qed.

(** Allocation leaves the cells that are there as they are. *)
Lemma lookup_alloc_old (h : Heap) (l : loc) (c c' : Cell) :
  h !! l = Some c → (h ++ [c']) !! l = Some c.
Proof. apply lookup_app_l_Some. Qed.

Lemma lookup_alloc_new (h : Heap) (c : Cell) :
  (h ++ [c]) !! length h = Some c.
Proof. apply list_lookup_middle. reflexivity. Qed.

Lemma lookup_fresh (h : Heap) (l : loc) (c : Cell) :
  h !! l = Some c → l ≠ length h.
Proof. intros E%lookup_lt_Some. lia. Qed.

(** Looks a cell up through the stores and allocations made since a
    hypothesis spoke of it. *)
Ltac heap_lookup :=
  solve [ repeat first
    [ eassumption
    | apply lookup_alloc_new
    | eapply lookup_store_eq
    | eapply lookup_store_ne; [|congruence]
    | eapply lookup_alloc_old ] ].

(** ** The bit helpers *)

Lemma getBit_testbit (v k : Z) :
  0 ≤ k → truthy (PNumber (Typer.getBit v k)) = Z.testbit v k.
Proof.
  intros Hk. unfold Typer.getBit, truthy.
  change 1 with (Z.ones 1). rewrite Z.land_ones by lia.
  change (2 ^ 1) with 2. rewrite <- Z.bit0_mod, Z.shiftr_spec by lia.
  rewrite Z.add_0_l. destruct (Z.testbit v k); reflexivity.
Qed.

Lemma land_ones_small (x n : Z) : 0 ≤ n → 0 ≤ x < 2 ^ n → Z.land x (Z.ones n) = x.
Proof. intros Hn Hx. rewrite Z.land_ones by lia. apply Z.mod_small. lia. Qed.

Lemma shiftr_small (x n : Z) : 0 ≤ n → 0 ≤ x < 2 ^ n → Z.shiftr x n = 0.
Proof. intros Hn Hx. rewrite Z.shiftr_div_pow2 by lia. apply Z.div_small. lia. Qed.

Lemma setBitRange_zero (start len v : Z) :
  0 ≤ len → 0 ≤ v < 2 ^ len →
  Typer.setBitRange 0 start len v = Z.shiftl v start.
Proof.
  intros Hl Hv. unfold Typer.setBitRange.
  rewrite Z.ldiff_0_l, Z.lor_0_l, land_ones_small by lia. reflexivity.
Qed.

Lemma setBitRange_low (hi len v : Z) :
  0 ≤ len → 0 ≤ v < 2 ^ len →
  Typer.setBitRange (Z.shiftl hi len) 0 len v = Z.lor (Z.shiftl hi len) v.
Proof.
  intros Hl Hv. unfold Typer.setBitRange.
  rewrite !Z.shiftl_0_r, Z.ldiff_ones_r, land_ones_small by lia.
  rewrite Z.shiftr_shiftl_l, Z.sub_diag, Z.shiftl_0_r by lia. reflexivity.
Qed.

Lemma getBitRange_high (hi lo len width : Z) :
  0 ≤ len → 0 ≤ width → 0 ≤ hi < 2 ^ width → 0 ≤ lo < 2 ^ len →
  Typer.getBitRange (Z.lor (Z.shiftl hi len) lo) len width = hi.
Proof.
  intros Hl Hw Hhi Hlo. unfold Typer.getBitRange.
  rewrite Z.shiftr_lor, Z.shiftr_shiftl_l, Z.sub_diag, Z.shiftl_0_r by lia.
  rewrite shiftr_small, Z.lor_0_r by lia. apply land_ones_small; lia.
Qed.

Lemma getBitRange_low (hi lo len : Z) :
  0 ≤ len → 0 ≤ lo < 2 ^ len →
  Typer.getBitRange (Z.lor (Z.shiftl hi len) lo) 0 len = lo.
Proof.
  intros Hl Hlo. unfold Typer.getBitRange.
  rewrite Z.shiftr_0_r, Z.land_lor_distr_l, (land_ones_small lo) by lia.
  rewrite Z.land_ones, Z.shiftl_mul_pow2, Z.mod_mul by lia. apply Z.lor_0_l.
Qed.

Lemma lor_shiftl_add (hi lo len : Z) :
  0 ≤ len → 0 ≤ lo < 2 ^ len →
  Z.lor (Z.shiftl hi len) lo = hi * 2 ^ len + lo.
Proof.
  intros Hl Hlo. set (w := Z.lor (Z.shiftl hi len) lo).
  rewrite (Z.div_mod w (2 ^ len)) by lia.
  rewrite <- Z.shiftr_div_pow2, <- Z.land_ones by lia.
  unfold w. rewrite Z.shiftr_lor, Z.shiftr_shiftl_l, Z.sub_diag, Z.shiftl_0_r by lia.
  rewrite shiftr_small, Z.lor_0_r by lia.
  pose proof (getBitRange_low hi lo len Hl Hlo) as G. unfold Typer.getBitRange in G.
  rewrite Z.shiftr_0_r in G. rewrite G. lia.
Qed.

Lemma be32_roundtrip (w : Z) :
  0 ≤ w < 2 ^ 32 →
  Z.lor (Z.shiftl (Z.land (Z.shiftr w 24) 255) 24)
    (Z.lor (Z.shiftl (Z.land (Z.shiftr w 16) 255) 16)
       (Z.lor (Z.shiftl (Z.land (Z.shiftr w 8) 255) 8) (Z.land w 255))) = w.
Proof.
  intros Hw. apply Z.bits_inj'. intros k Hk.
  change 255 with (Z.ones 8).
  rewrite !Z.lor_spec, !Z.shiftl_spec, !Z.land_spec by lia.
  destruct (Z.lt_ge_cases k 8); [|destruct (Z.lt_ge_cases k 16); [|destruct (Z.lt_ge_cases k 24); [|destruct (Z.lt_ge_cases k 32)]]].
  - rewrite !(Z.testbit_neg_r _ (k - _)) by lia.
    rewrite Z.testbit_ones_nonneg by lia.
    destruct (Z.ltb_spec k 8); [|lia]. rewrite andb_true_r. reflexivity.
  - rewrite !(Z.testbit_neg_r _ (k - 16)), !(Z.testbit_neg_r _ (k - 24)) by lia.
    rewrite !Z.shiftr_spec, !Z.testbit_ones_nonneg by lia.
    destruct (Z.ltb_spec (k - 8) 8); [|lia]. destruct (Z.ltb_spec k 8); [lia|].
    rewrite !andb_true_r, !andb_false_r. simpl. rewrite orb_false_r. f_equal. lia.
  - rewrite !(Z.testbit_neg_r _ (k - 24)) by lia.
    rewrite !Z.shiftr_spec, !Z.testbit_ones_nonneg by lia.
    destruct (Z.ltb_spec (k - 16) 8); [|lia]. destruct (Z.ltb_spec (k - 8) 8); [lia|].
    destruct (Z.ltb_spec k 8); [lia|].
    rewrite !andb_true_r, !andb_false_r. simpl. rewrite orb_false_r. f_equal. lia.
  - rewrite !Z.shiftr_spec, !Z.testbit_ones_nonneg by lia.
    destruct (Z.ltb_spec (k - 24) 8); [|lia]. destruct (Z.ltb_spec (k - 16) 8); [lia|].
    destruct (Z.ltb_spec (k - 8) 8); [lia|]. destruct (Z.ltb_spec k 8); [lia|].
    rewrite !andb_true_r, !andb_false_r. simpl. rewrite orb_false_r. f_equal. lia.
  - rewrite !Z.shiftr_spec, !Z.testbit_ones_nonneg by lia.
    destruct (Z.ltb_spec (k - 24) 8); [lia|]. destruct (Z.ltb_spec (k - 16) 8); [lia|].
    destruct (Z.ltb_spec (k - 8) 8); [lia|]. destruct (Z.ltb_spec k 8); [lia|].
    rewrite !andb_false_r. simpl.
    symmetry. apply Z.bits_above_log2; [lia|].
    destruct (Z.eq_dec w 0) as [->|]; [simpl; lia|].
    apply Z.lt_le_trans with 32; [|lia]. apply Z.log2_lt_pow2; lia.
Qed.

(** The four bytes of a 32-bit word read back as the word. *)
Lemma readUInt32BE_bytes (w : Z) opts (pre post : list Z) :
  0 ≤ w < 2 ^ 32 →
  IOs.readUInt32BE opts
    {| buffer := pre ++ IOs.uint32BEBytes w ++ post; offset := length pre |} =
    (Ok w, {| buffer := pre ++ IOs.uint32BEBytes w ++ post;
              offset := (length pre + 4)%nat |}).
Proof.
  intros Rw. unfold IOs.uint32BEBytes.
  cbn [IOs.writeUInt32BE snd written].
  unfold IOs.readUInt32BE. cbn [buffer offset app].
  rewrite (list_lookup_middle pre _ _ (length pre)) by reflexivity.
  rewrite !lookup_app_r by lia.
  replace (length pre + 1 - length pre)%nat with 1%nat by lia.
  replace (length pre + 2 - length pre)%nat with 2%nat by lia.
  replace (length pre + 3 - length pre)%nat with 3%nat by lia.
  cbn [lookup list_lookup app]. rewrite be32_roundtrip by exact Rw. reflexivity.
Qed.

(** ** The tag codec *)

Lemma readTag_value opts r r' t :
  IOs.readTag opts r = (Ok t, r') → ∃ v, value t = Some v.
Proof.
  unfold IOs.readTag. rewrite bind_run.
  destruct (IOs.readUInt8 opts r) as [[b|e] r1]; [|discriminate].
  cbv zeta. rewrite bind_run.
  destruct ((if Z.shiftr b 4 =? 15 then IOs.readUInt8 opts else mret (Z.shiftr b 4)) r1)
    as [[n|e] r2]; [|discriminate].
  rewrite bind_run.
  match goal with |- context [match ?m r2 with _ => _ end] => destruct (m r2) as [[v|e] r3] end;
    [|discriminate].
  intros [= <- <-]. eauto.
Qed.

Module TagProps.

Lemma readUInt8_run opts (buf : list Z) (off : nat) (b : Z) :
  buf !! off = Some b →
  IOs.readUInt8 opts {| buffer := buf; offset := off |} =
    (Ok b, {| buffer := buf; offset := S off |}).
Proof. intros E. unfold IOs.readUInt8. simpl. rewrite E. reflexivity. Qed.

(** The three fields of a header byte come back apart. *)
Lemma header_fields (n c v : Z) :
  0 ≤ n ≤ 15 → 0 ≤ c ≤ 1 → 0 ≤ v ≤ 7 →
  let b := Z.lor (Z.shiftl n 4) (Z.lor (Z.shiftl c 3) v) in
  Z.shiftr b 4 = n ∧ Z.land (Z.shiftr b 3) 1 = c ∧ Z.land b 7 = v ∧
  Z.testbit b 3 = bool_decide (c = 1).
Proof.
  intros Hn Hc Hv.
  pose (P := λ n c v : Z,
    let b := Z.lor (Z.shiftl n 4) (Z.lor (Z.shiftl c 3) v) in
    Z.shiftr b 4 = n ∧ Z.land (Z.shiftr b 3) 1 = c ∧ Z.land b 7 = v ∧
    Z.testbit b 3 = bool_decide (c = 1)).
  assert (Forall (λ n, Forall (λ c, Forall (λ v, P n c v) (seqZ 0 8)) (seqZ 0 2))
            (seqZ 0 16)) as Hall.
  { apply (bool_decide_eq_true_1 _). vm_compute. reflexivity. }
  rewrite Forall_seqZ in Hall. specialize (Hall n ltac:(lia)).
  rewrite Forall_seqZ in Hall. specialize (Hall c ltac:(lia)).
  rewrite Forall_seqZ in Hall. exact (Hall v ltac:(lia)).
Qed.

Lemma writeTag_run (n c v : Z) (w : Writer) :
  IOs.writeTag n c v w = (Ok tt, {| written := written w ++ IOs.tagBytes n c v |}).
Proof.
  unfold IOs.tagBytes, IOs.writeTag.
  destruct (n <=? 14), (v <=? 4), (v <=? 253), (v <=? 65535);
    cbv [mbind mret ST_bind ST_ret bind ret IOs.writeUInt8 IOs.writeUInt16BE
         IOs.writeUInt32BE written snd];
    rewrite <- ?app_assoc; reflexivity.
Qed.

Lemma tagBytes_inline (n c v : Z) :
  v ≤ 4 →
  IOs.tagBytes n c v =
    Z.lor (Z.shiftl (if n <=? 14 then n else 15) 4) (Z.lor (Z.shiftl c 3) v)
    :: (if n <=? 14 then [] else [n]).
Proof.
  intros Hv. unfold IOs.tagBytes, IOs.writeTag.
  destruct (Z.leb_spec v 4); [|lia].
  destruct (n <=? 14); reflexivity.
Qed.

(** A tag with an inline length/value (0 to 4) reads back as it was
    written, and the reader stops at its end. *)
Lemma readTag_tagBytes (n c v : Z) opts (pre post : list Z) :
  0 ≤ n ≤ 254 → 0 ≤ c ≤ 1 → 0 ≤ v ≤ 4 →
  IOs.readTag opts {| buffer := pre ++ IOs.tagBytes n c v ++ post;
                      offset := length pre |} =
    (Ok {| num := n; type := c; value := Some v |},
     {| buffer := pre ++ IOs.tagBytes n c v ++ post;
        offset := (length pre + length (IOs.tagBytes n c v))%nat |}).
Proof.
  intros Hn Hc Hv. rewrite tagBytes_inline by lia.
  set (nib := if n <=? 14 then n else 15).
  assert (0 ≤ nib ≤ 15) as Hnib by (unfold nib; destruct (Z.leb_spec n 14); lia).
  destruct (header_fields nib c v Hnib Hc ltac:(lia)) as (F1 & F2 & F3 & _).
  set (hdr := Z.lor (Z.shiftl nib 4) (Z.lor (Z.shiftl c 3) v)) in *.
  unfold IOs.readTag.
  erewrite bind_ok;
    [|apply readUInt8_run; rewrite <- app_comm_cons; apply list_lookup_middle; reflexivity].
  cbv zeta. rewrite F1, F2, F3.
  destruct (Z.eqb_spec v 5); [lia|].
  unfold nib. destruct (Z.leb_spec n 14).
  - destruct (Z.eqb_spec n 15); [lia|]. simpl.
    rewrite Nat.add_1_r. reflexivity.
  - simpl.
    replace (pre ++ hdr :: n :: post) with ((pre ++ [hdr]) ++ n :: post)
      by (rewrite <- app_assoc; reflexivity).
    erewrite bind_ok;
      [|apply readUInt8_run, list_lookup_middle; rewrite length_app; simpl; lia].
    simpl. repeat f_equal. lia.
Qed.

End TagProps.

(** ** lodash *)

Lemma payload_ref (h : Heap) (l : loc) (o : Object) :
  h !! l = Some (CObject o) → payload h (VRef l) = Some o.
Proof. intros E. unfold payload. rewrite E. reflexivity. Qed.

Lemma ownProps_run (h : Heap) (v : Value) (o : Object) :
  payload h v = Some o → lodash.ownProps v h = (Ok o, h).
Proof.
  unfold payload, lodash.ownProps. destruct v as [p|l]; [intros [= <-]; reflexivity|].
  destruct (h !! l) as [c|] eqn:E; [|discriminate].
  destruct c; try discriminate. intros [= <-].
  rewrite (bind_ok _ _ _ _ _ (load_run _ _ _ E)). reflexivity.
Qed.

Lemma has_run (h : Heap) (v : Value) (o : Object) (key : string) :
  payload h v = Some o →
  lodash.has v key h = (Ok (bool_decide (is_Some (o !! key))), h).
Proof.
  intros E. unfold lodash.has.
  rewrite (bind_ok _ _ _ _ _ (ownProps_run _ _ _ E)). reflexivity.
Qed.

Lemma clone_ref_run (h : Heap) (l : loc) (o : Object) :
  h !! l = Some (CObject o) →
  lodash.clone (VRef l) h = (Ok (VRef (length h)), h ++ [CObject o]).
Proof.
  intros E. unfold lodash.clone.
  erewrite bind_ok; [|apply ownProps_run; unfold payload; rewrite E; reflexivity].
  reflexivity.
Qed.

Lemma assign_run (h : Heap) (v : Value) (o defaults : Object) :
  payload h v = Some o →
  lodash.assign defaults v h = (Ok (length h), h ++ [CObject (o ∪ defaults)]).
Proof.
  intros E. unfold lodash.assign.
  rewrite (bind_ok _ _ _ _ _ (ownProps_run _ _ _ E)). reflexivity.
Qed.

(** ** BACnetBoolean *)

Module BooleanProps.
Import BACnetBoolean.

Lemma boolean_self_run h this i :
h !! this = Some (CBoolean i) → self this h = (Ok i, h).
Proof. intros E. unfold self. rewrite (bind_ok _ _ _ _ _ (load_run _ _ _ E)). reflexivity. Qed.

Lemma boolean_set_tag_run h this i t :
h !! this = Some (CBoolean i) →
set_tag this t h = (Ok tt, <[this := CBoolean {| tag := Some t; data := data i |}]> h).
Proof. intros E. unfold set_tag. rewrite (bind_ok _ _ _ _ _ (boolean_self_run _ _ _ E)). reflexivity. Qed.

Lemma boolean_set_data_run h this i d :
h !! this = Some (CBoolean i) →
set_data this d h = (Ok tt, <[this := CBoolean {| tag := tag i; data := d |}]> h).
Proof. intros E. unfold set_data. rewrite (bind_ok _ _ _ _ _ (boolean_self_run _ _ _ E)). reflexivity. Qed.

(** C3. On a tag of application class, [readValue] stores the tag and sets
  the stored boolean to the truthiness of the tag's length/value field
  ([tag.value]); the reader is left where the tag ended: no payload byte
  is read. *)
Theorem readValue_application (h : Heap) (this reader : loc) opts i r t r' :
h !! this = Some (CBoolean i) →
h !! reader = Some (CReader r) →
IOs.readTag opts r = (Ok t, r') →
type t = Enums.TagType.application →
∃ v, value t = Some v ∧
  readValue this reader opts h =
    (Ok tt, <[this := CBoolean {| tag := Some t; data := negb (v =? 0) |}]>
              (<[reader := CReader r']> h)).
Proof.
intros Hthis Hreader Htag Hclass.
destruct (readTag_value _ _ _ _ Htag) as [v Hv]. exists v. split; [exact Hv|].
assert (this ≠ reader) as Hne by (intros ->; congruence).
unfold readValue.
erewrite bind_ok; [|rewrite (withReader_run _ _ _ _ Hreader), Htag; reflexivity].
erewrite bind_ok; [|apply boolean_set_tag_run; apply lookup_store_ne; eauto].
rewrite Hclass. simpl.
erewrite boolean_set_data_run; [|eapply lookup_store_eq, lookup_store_ne; eauto].
rewrite list_insert_insert_eq, Hv. reflexivity.
Qed.

(** The theorem at a boolean reading the one-byte buffer 0x11 (number 1,
    application class, length/value 1). *)
Lemma readValue_application_witness :
  ∃ v, value {| num := 1; type := 0; value := Some 1 |} = Some v ∧
    readValue 0%nat 1%nat None (Examples.boolean_heap false [0x11]) =
      (Ok tt,
       <[0%nat := CBoolean {| tag := Some {| num := 1; type := 0; value := Some 1 |};
                              data := negb (v =? 0) |}]>
         (<[1%nat := CReader {| buffer := [0x11]; offset := 1 |}]>
            (Examples.boolean_heap false [0x11]))).
Proof.
  apply (readValue_application (Examples.boolean_heap false [0x11]) 0%nat 1%nat None
           {| tag := None; data := false |} {| buffer := [0x11]; offset := 0 |}
           {| num := 1; type := 0; value := Some 1 |}
           {| buffer := [0x11]; offset := 1 |});
    reflexivity.
Defined.

(** C2. [writeValue] appends one application-class tag and nothing else:
    the low three bits of its first byte (the length/value subfield) are the
    stored boolean as 0 or 1, its class bit is clear, and read back the
    bytes are that tag with the reader at their end; [readValue], on a tag
    of context class, reads one more byte and stores whether it is nonzero. *)
Theorem boolean_dual_form :
  (∀ PropertyType (h : Heap) (this writer : loc) i w,
     h !! this = Some (CBoolean i) →
     h !! writer = Some (CWriter w) →
     0 ≤ Enums.boolean PropertyType ≤ 254 →
     ∃ first ext,
       writeValue PropertyType this writer h =
         (Ok tt, <[writer := CWriter {| written := written w ++ first :: ext |}]> h) ∧
       Z.land first 7 = Z.b2z (data i) ∧
       Z.testbit first 3 = false ∧
       ∀ opts post,
         IOs.readTag opts {| buffer := first :: ext ++ post; offset := 0 |} =
           (Ok {| num := Enums.boolean PropertyType;
                  type := Enums.TagType.application;
                  value := Some (Z.b2z (data i)) |},
            {| buffer := first :: ext ++ post; offset := length (first :: ext) |})) ∧
  (∀ (h : Heap) (this reader : loc) opts i r t r' b,
     h !! this = Some (CBoolean i) →
     h !! reader = Some (CReader r) →
     IOs.readTag opts r = (Ok t, r') →
     type t = Enums.TagType.context →
     buffer r' !! offset r' = Some b →
     readValue this reader opts h =
       (Ok tt, <[this := CBoolean {| tag := Some t; data := negb (b =? 0) |}]>
                 (<[reader := CReader {| buffer := buffer r'; offset := S (offset r') |}]> h))).
Proof.
  split.
  - intros PT h this writer i w Hthis Hwriter Hnum.
    pose proof (TagProps.tagBytes_inline (Enums.boolean PT) Enums.TagType.application
                  (Z.b2z (data i)) ltac:(destruct (data i); simpl; lia)) as Hbytes.
    set (nib := if Enums.boolean PT <=? 14 then Enums.boolean PT else 15) in *.
    assert (0 ≤ nib ≤ 15) as Hnib
      by (unfold nib; destruct (Z.leb_spec (Enums.boolean PT) 14); lia).
    destruct (TagProps.header_fields nib Enums.TagType.application (Z.b2z (data i))
                Hnib ltac:(unfold Enums.TagType.application; lia)
                ltac:(destruct (data i); simpl; lia)) as (_ & _ & F3 & F4).
    eexists _, _. split; [|split; [exact F3|split; [exact F4|]]].
    + unfold writeValue.
      erewrite bind_ok; [|apply boolean_self_run; eauto].
      rewrite (withWriter_run _ _ _ _ Hwriter), TagProps.writeTag_run, Hbytes.
      reflexivity.
    + intros opts post.
      pose proof (TagProps.readTag_tagBytes (Enums.boolean PT) Enums.TagType.application
                    (Z.b2z (data i)) opts [] post Hnum
                    ltac:(unfold Enums.TagType.application; lia)
                    ltac:(destruct (data i); simpl; lia)) as Hread.
      rewrite Hbytes in Hread. exact Hread.
  - intros h this reader opts i r t r' b Hthis Hreader Htag Hclass Hb.
    assert (this ≠ reader) as Hne by (intros ->; congruence).
    unfold readValue.
    erewrite bind_ok; [|rewrite (withReader_run _ _ _ _ Hreader), Htag; reflexivity].
    erewrite bind_ok; [|apply boolean_set_tag_run; apply lookup_store_ne; eauto].
    rewrite Hclass. simpl.
    erewrite bind_ok;
      [|erewrite withReader_run by heap_lookup;
        unfold IOs.readUInt8; rewrite Hb; reflexivity].
    erewrite boolean_set_data_run by heap_lookup.
    simpl.
    rewrite (list_insert_insert_ne _ reader this) by congruence.
    rewrite !list_insert_insert_eq. reflexivity.
Qed.

(** The theorem at [true] written to an empty writer, and at the buffer
    0x19 0x01 (number 1, context class, length 1, payload 1) read. *)
Lemma boolean_dual_form_witness :
  (∃ first ext,
     writeValue Examples.PropertyType 0%nat 2%nat (Examples.boolean_heap true []) =
       (Ok tt, <[2%nat := CWriter {| written := [] ++ first :: ext |}]>
                 (Examples.boolean_heap true [])) ∧
     Z.land first 7 = 1 ∧
     Z.testbit first 3 = false ∧
     ∀ opts post,
       IOs.readTag opts {| buffer := first :: ext ++ post; offset := 0 |} =
         (Ok {| num := 1; type := 0; value := Some 1 |},
          {| buffer := first :: ext ++ post; offset := length (first :: ext) |})) ∧
  readValue 0%nat 1%nat None (Examples.boolean_heap false [0x19; 0x01]) =
    (Ok tt,
     <[0%nat := CBoolean {| tag := Some {| num := 1; type := 1; value := Some 1 |};
                            data := true |}]>
       (<[1%nat := CReader {| buffer := [0x19; 0x01]; offset := 2 |}]>
          (Examples.boolean_heap false [0x19; 0x01]))).
Proof.
  split.
  - apply (proj1 boolean_dual_form Examples.PropertyType
             (Examples.boolean_heap true []) 0%nat 2%nat
             {| tag := None; data := true |} {| written := [] |});
      [reflexivity | reflexivity | simpl; lia].
  - apply (proj2 boolean_dual_form (Examples.boolean_heap false [0x19; 0x01])
             0%nat 1%nat None {| tag := None; data := false |}
             {| buffer := [0x19; 0x01]; offset := 0 |}
             {| num := 1; type := 1; value := Some 1 |}
             {| buffer := [0x19; 0x01]; offset := 1 |} 1);
      reflexivity.
Defined.

End BooleanProps.

(** ** BACnetStatusFlags *)

Module StatusFlagsProps.
Import BACnetStatusFlags.

Lemma status_self_run h this i :
  h !! this = Some (CStatusFlags i) → self this h = (Ok i, h).
Proof. intros E. unfold self. rewrite (bind_ok _ _ _ _ _ (load_run _ _ _ E)). reflexivity. Qed.

Lemma status_set_tag_run h this i t :
  h !! this = Some (CStatusFlags i) →
  set_tag this t h = (Ok tt, <[this := CStatusFlags {| tag := Some t; data := data i |}]> h).
Proof. intros E. unfold set_tag. rewrite (bind_ok _ _ _ _ _ (status_self_run _ _ _ E)). reflexivity. Qed.

Lemma status_set_data_run h this i d :
  h !! this = Some (CStatusFlags i) →
  set_data this d h = (Ok tt, <[this := CStatusFlags {| tag := tag i; data := d |}]> h).
Proof. intros E. unfold set_data. rewrite (bind_ok _ _ _ _ _ (status_self_run _ _ _ E)). reflexivity. Qed.

(** The byte [writeValue] builds from four flags. *)
Lemma status_byte_bits (a f o s : bool) :
  let b := Typer.setBit (Typer.setBit (Typer.setBit (Typer.setBit 0 7 a) 6 f) 5 o) 4 s in
  Z.testbit b 7 = a ∧ Z.testbit b 6 = f ∧ Z.testbit b 5 = o ∧ Z.testbit b 4 = s ∧
  Z.land b 15 = 0 ∧ 0 ≤ b ≤ 255 ∧
  b = 128 * Z.b2z a + 64 * Z.b2z f + 32 * Z.b2z o + 16 * Z.b2z s.
Proof. destruct a, f, o, s; vm_compute; intuition congruence. Qed.

Lemma status_writeValue_run PropertyType (h : Heap) (this writer : loc) i o w :
  h !! this = Some (CStatusFlags i) →
  h !! data i = Some (CObject o) →
  h !! writer = Some (CWriter w) →
  writeValue PropertyType this writer h =
    (Ok tt,
     <[writer := CWriter {| written :=
          written w ++ IOs.tagBytes (Enums.bitString PropertyType) 0 2
                    ++ [4; statusByte o] |}]> h).
Proof.
  intros Hthis Hdata Hwriter. unfold writeValue.
  erewrite bind_ok; [|eapply withWriter_ok; [heap_lookup|apply TagProps.writeTag_run]].
  erewrite bind_ok; [|eapply withWriter_ok; [heap_lookup|reflexivity]].
  erewrite bind_ok; [|apply status_self_run; heap_lookup].
  erewrite bind_ok; [|apply object_run; heap_lookup].
  cbv zeta. erewrite withWriter_ok; [|heap_lookup|reflexivity].
  cbn [written]. rewrite !list_insert_insert_eq, <- !app_assoc. reflexivity.
Qed.

(** C4. [writeValue] appends the bytes of a tag with the number of the bit
    string type, application class and length 2, then the byte 4, then one
    byte whose bits 7, 6, 5, 4 are the stored [inAlarm], [fault],
    [overridden], [outOfService] and whose bits 3 to 0 are zero; with only
    [inAlarm] set that byte is 0x80. *)
Theorem writeValue_status_byte PropertyType (h : Heap) (this writer : loc) i o w :
  h !! this = Some (CStatusFlags i) →
  h !! data i = Some (CObject o) →
  h !! writer = Some (CWriter w) →
  0 ≤ Enums.bitString PropertyType ≤ 254 →
  ∃ payload,
    writeValue PropertyType this writer h =
      (Ok tt,
       <[writer := CWriter {| written :=
            written w ++ IOs.tagBytes (Enums.bitString PropertyType) 0 2
                      ++ [4; payload] |}]> h) ∧
    (∀ opts post,
       IOs.readTag opts
         {| buffer := IOs.tagBytes (Enums.bitString PropertyType) 0 2 ++ post;
            offset := 0 |} =
         (Ok {| num := Enums.bitString PropertyType;
                type := Enums.TagType.application; value := Some 2 |},
          {| buffer := IOs.tagBytes (Enums.bitString PropertyType) 0 2 ++ post;
             offset := length (IOs.tagBytes (Enums.bitString PropertyType) 0 2) |})) ∧
    Z.testbit payload 7 = truthy (prop o "inAlarm") ∧
    Z.testbit payload 6 = truthy (prop o "fault") ∧
    Z.testbit payload 5 = truthy (prop o "overridden") ∧
    Z.testbit payload 4 = truthy (prop o "outOfService") ∧
    Z.land payload 15 = 0 ∧
    0 ≤ payload ≤ 255 ∧
    (truthy (prop o "inAlarm") = true → truthy (prop o "fault") = false →
     truthy (prop o "overridden") = false → truthy (prop o "outOfService") = false →
     payload = 0x80).
Proof.
  intros Hthis Hdata Hwriter Hnum.
  destruct (status_byte_bits (truthy (prop o "inAlarm")) (truthy (prop o "fault"))
              (truthy (prop o "overridden")) (truthy (prop o "outOfService")))
    as (B7 & B6 & B5 & B4 & Blow & Brange & Bval).
  cbv zeta in *. fold (statusByte o) in *.
  exists (statusByte o).
  split; [|split; [|split_and!; try eassumption; try apply Brange]].
  - eapply status_writeValue_run; eassumption.
  - intros opts post.
    exact (TagProps.readTag_tagBytes (Enums.bitString PropertyType) 0 2 opts [] post
             Hnum ltac:(lia) ltac:(lia)).
  - intros Ha Hf Ho Hs. rewrite Bval, Ha, Hf, Ho, Hs. reflexivity.
Qed.

(** The theorem at a value with only [inAlarm] set: the bytes written are
    0x82 (number 8, application class, length 2), 4, 0x80. *)
Lemma writeValue_status_byte_witness :
  ∃ payload,
    writeValue Examples.PropertyType 0%nat 3%nat
      (Examples.status_heap Examples.only_inAlarm []) =
      (Ok tt,
       <[3%nat := CWriter {| written := [] ++ [0x82] ++ [4; payload] |}]>
         (Examples.status_heap Examples.only_inAlarm [])) ∧
    payload = 0x80.
Proof.
  destruct (writeValue_status_byte Examples.PropertyType
              (Examples.status_heap Examples.only_inAlarm []) 0%nat 3%nat
              {| tag := None; data := 1%nat |} Examples.only_inAlarm
              {| written := [] |} eq_refl eq_refl eq_refl
              ltac:(simpl; lia))
    as (payload & Hrun & _ & _ & _ & _ & _ & _ & _ & Honly).
  exists payload. split; [exact Hrun | apply Honly; reflexivity].
Defined.

(** The flags [readValue] stores for the payload byte [v]. *)
Lemma status_flags_of_byte (v : Z) :
  ({[ "inAlarm" := PBool (truthy (PNumber (Typer.getBit v 7)));
      "fault" := PBool (truthy (PNumber (Typer.getBit v 6)));
      "overridden" := PBool (truthy (PNumber (Typer.getBit v 5)));
      "outOfService" := PBool (truthy (PNumber (Typer.getBit v 4))) ]} : Object) =
  {[ "inAlarm" := PBool (Z.testbit v 7); "fault" := PBool (Z.testbit v 6);
     "overridden" := PBool (Z.testbit v 5); "outOfService" := PBool (Z.testbit v 4) ]}.
Proof. rewrite !getBit_testbit by lia. reflexivity. Qed.

(** C7, as the code has it. [readValue] never looks at the class or the
    number of the tag it has read: whatever the tag, it stores it, reads the
    unused-bits byte and the payload byte, and stores a new flags object
    holding bits 7, 6, 5, 4 of the payload. *)
Theorem readValue_any_tag (h : Heap) (this reader : loc) opts i r t r' u v :
  h !! this = Some (CStatusFlags i) →
  h !! reader = Some (CReader r) →
  IOs.readTag opts r = (Ok t, r') →
  buffer r' !! offset r' = Some u →
  buffer r' !! S (offset r') = Some v →
  readValue this reader opts h =
    (Ok tt,
     <[this := CStatusFlags {| tag := Some t; data := length h |}]>
       (<[reader := CReader {| buffer := buffer r'; offset := S (S (offset r')) |}]> h)
     ++ [CObject {[ "inAlarm" := PBool (Z.testbit v 7);
                    "fault" := PBool (Z.testbit v 6);
                    "overridden" := PBool (Z.testbit v 5);
                    "outOfService" := PBool (Z.testbit v 4) ]}]).
Proof.
  intros Hthis Hreader Htag Hu Hv.
  assert (this ≠ reader) as Hne by (intros ->; congruence).
  pose proof (lookup_lt_Some _ _ _ Hthis) as Hlt.
  unfold readValue.
  erewrite bind_ok; [|eapply withReader_ok; [heap_lookup|exact Htag]].
  erewrite bind_ok; [|apply status_set_tag_run; heap_lookup].
  erewrite bind_ok;
    [|eapply withReader_ok; [heap_lookup|apply readUInt8_ok, Hu]].
  erewrite bind_ok;
    [|eapply withReader_ok; [heap_lookup|apply readUInt8_ok, Hv]].
  cbv zeta. rewrite status_flags_of_byte.
  erewrite bind_ok; [|reflexivity].
  erewrite status_set_data_run by heap_lookup.
  cbn [tag data fst snd buffer offset]. rewrite !length_insert.
  rewrite insert_app_l by (rewrite !length_insert; exact Hlt).
  rewrite !list_insert_insert_eq.
  rewrite (list_insert_insert_ne _ reader this) by congruence.
  rewrite !list_insert_insert_eq. reflexivity.
Qed.

(** The theorem at the bytes of a context-class tag. *)
Lemma readValue_any_tag_witness :
  readValue 0%nat 2%nat None
    (Examples.status_heap defaults Examples.context_status_bytes) =
    (Ok tt,
     <[0%nat := CStatusFlags {| tag := Some {| num := 8; type := 1; value := Some 2 |};
                                data := 4%nat |}]>
       (<[2%nat := CReader {| buffer := Examples.context_status_bytes; offset := 3 |}]>
          (Examples.status_heap defaults Examples.context_status_bytes))
     ++ [CObject {[ "inAlarm" := PBool (Z.testbit 0x80 7);
                    "fault" := PBool (Z.testbit 0x80 6);
                    "overridden" := PBool (Z.testbit 0x80 5);
                    "outOfService" := PBool (Z.testbit 0x80 4) ]}]).
Proof.
  apply (readValue_any_tag
           (Examples.status_heap defaults Examples.context_status_bytes)
           0%nat 2%nat None {| tag := None; data := 1%nat |}
           {| buffer := Examples.context_status_bytes; offset := 0 |}
           {| num := 8; type := 1; value := Some 2 |}
           {| buffer := Examples.context_status_bytes; offset := 1 |} 0x04 0x80);
    reflexivity.
Defined.

(** C7, as stated, fails: on a bit string tag of context class [readValue]
    does not throw; it returns, with [inAlarm] decoded from the payload. *)
Lemma readValue_context_tag_no_error :
  throws (readValue 0%nat 2%nat None)
    (Examples.status_heap defaults Examples.context_status_bytes) = false ∧
  readValue 0%nat 2%nat None
    (Examples.status_heap defaults Examples.context_status_bytes) =
    (Ok tt,
     [CStatusFlags {| tag := Some {| num := 8; type := Enums.TagType.context;
                                     value := Some 2 |};
                      data := 4%nat |};
      CObject defaults;
      CReader {| buffer := Examples.context_status_bytes; offset := 3 |};
      CWriter {| written := [] |};
      CObject {[ "inAlarm" := PBool true; "fault" := PBool false;
                 "overridden" := PBool false; "outOfService" := PBool false ]}]).
Proof. split; reflexivity. Qed.

Lemma status_getValue_run h this i o :
  h !! this = Some (CStatusFlags i) →
  h !! data i = Some (CObject o) →
  getValue this h = (Ok (VRef (length h)), h ++ [CObject o]).
Proof.
  intros Hthis Hdata. unfold getValue.
  rewrite (bind_ok _ _ _ _ _ (status_self_run _ _ _ Hthis)).
  apply clone_ref_run, Hdata.
Qed.

Lemma status_constructor_run h v o :
  payload h v = Some o →
  constructor v h =
    (Ok (S (length h)),
     h ++ [CObject (o ∪ defaults); CStatusFlags {| tag := None; data := length h |}]).
Proof.
  intros P. unfold constructor, checkAndGetValue.
  rewrite (bind_ok _ _ _ _ _ (assign_run _ _ _ _ P)).
  unfold alloc. rewrite length_app, <- app_assoc. cbn [length app].
  rewrite Nat.add_1_r. reflexivity.
Qed.

Lemma status_setValue_run h this i v o :
  h !! this = Some (CStatusFlags i) →
  payload h v = Some o →
  setValue this v h =
    (Ok tt, <[this := CStatusFlags {| tag := tag i; data := length h |}]>
              (h ++ [CObject (o ∪ defaults)])).
Proof.
  intros Hthis P. unfold setValue, checkAndGetValue.
  rewrite (bind_ok _ _ _ _ _ (assign_run _ _ _ _ P)).
  apply status_set_data_run. heap_lookup.
Qed.

(** What [_.assign] leaves in a flag: the caller's value if the caller gave
    one, [false] otherwise. *)
Lemma defaults_fill (o : Object) (f : string) :
  f ∈ ["inAlarm"; "fault"; "overridden"; "outOfService"] →
  (o !! f = None → (o ∪ defaults) !! f = Some (PBool false)) ∧
  (∀ p, o !! f = Some p → (o ∪ defaults) !! f = Some p).
Proof.
  intros Hf. split.
  - intros E. rewrite lookup_union_r by exact E.
    repeat (apply elem_of_cons in Hf as [->|Hf]; [reflexivity|]).
    apply elem_of_nil in Hf. contradiction.
  - intros p E. apply lookup_union_Some_l, E.
Qed.

End StatusFlagsProps.

(** ** BACnetObjectId *)

Module ObjectIdProps.
Import BACnetObjectId.

Lemma oid_self_run h this i :
  h !! this = Some (CObjectId i) → self this h = (Ok i, h).
Proof. intros E. unfold self. rewrite (bind_ok _ _ _ _ _ (load_run _ _ _ E)). reflexivity. Qed.

Lemma oid_set_tag_run h this i t :
  h !! this = Some (CObjectId i) →
  set_tag this t h = (Ok tt, <[this := CObjectId {| tag := Some t; data := data i |}]> h).
Proof. intros E. unfold set_tag. rewrite (bind_ok _ _ _ _ _ (oid_self_run _ _ _ E)). reflexivity. Qed.

Lemma oid_set_data_run h this i d :
  h !! this = Some (CObjectId i) →
  set_data this d h = (Ok tt, <[this := CObjectId {| tag := tag i; data := d |}]> h).
Proof. intros E. unfold set_data. rewrite (bind_ok _ _ _ _ _ (oid_self_run _ _ _ E)). reflexivity. Qed.

Lemma oid_getValue_run h this i o :
  h !! this = Some (CObjectId i) →
  h !! data i = Some (CObject o) →
  getValue this h = (Ok (VRef (length h)), h ++ [CObject o]).
Proof.
  intros Hthis Hdata. unfold getValue.
  rewrite (bind_ok _ _ _ _ _ (oid_self_run _ _ _ Hthis)).
  apply clone_ref_run, Hdata.
Qed.

Lemma checkAndGetValue_accepts h l o :
  h !! l = Some (CObject o) →
  is_Some (o !! "type") → is_Some (o !! "instance") →
  checkAndGetValue (VRef l) h = (Ok l, h).
Proof.
  intros E Ht Hi. unfold checkAndGetValue.
  assert (payload h (VRef l) = Some o) as P by (unfold payload; rewrite E; reflexivity).
  rewrite (bind_ok _ _ _ _ _ (has_run _ _ _ _ P)).
  rewrite (bind_ok _ _ _ _ _ (has_run _ _ _ _ P)).
  rewrite !bool_decide_eq_true_2 by assumption. reflexivity.
Qed.

Lemma checkAndGetValue_rejects h v o :
  payload h v = Some o →
  o !! "type" = None ∨ o !! "instance" = None →
  checkAndGetValue v h = (Throw (BACnetError updateValueMessage), h).
Proof.
  intros P Hmiss. unfold checkAndGetValue.
  rewrite (bind_ok _ _ _ _ _ (has_run _ _ _ _ P)).
  rewrite (bind_ok _ _ _ _ _ (has_run _ _ _ _ P)).
  destruct Hmiss as [E|E]; rewrite E.
  - rewrite (bool_decide_eq_false_2 (is_Some None)) by (intros [? ?]; discriminate).
    reflexivity.
  - rewrite (bool_decide_eq_false_2 (is_Some None)) by (intros [? ?]; discriminate).
    rewrite orb_true_r. reflexivity.
Qed.

Lemma encodeObjectIdentifier_run h l o :
  h !! l = Some (CObject o) →
  encodeObjectIdentifier l h = (Ok (objectIdWord o), h).
Proof.
  intros E. unfold encodeObjectIdentifier.
  rewrite (bind_ok _ _ _ _ _ (object_run _ _ _ E)). reflexivity.
Qed.

(** C1. For a type of 10 bits and an instance of 22 bits, the word
    [encodeObjectIdentifier] returns is [(type << 22) | instance], a 32-bit
    word with the type in bits 31 to 22 and the instance in bits 21 to 0;
    [decodeObjectIdentifier] of that word is a new object with exactly that
    type and that instance; written big-endian and read back, the word is
    the same. *)
Theorem decode_encode_objectId (h : Heap) (l : loc) (o : Object) (t i : Z) :
  h !! l = Some (CObject o) →
  o !! "type" = Some (PNumber t) →
  o !! "instance" = Some (PNumber i) →
  0 ≤ t ≤ 1023 → 0 ≤ i ≤ 4194303 →
  ∃ w,
    encodeObjectIdentifier l h = (Ok w, h) ∧
    w = Z.lor (Z.shiftl t 22) i ∧
    0 ≤ w < 2 ^ 32 ∧
    Typer.getBitRange w 22 10 = t ∧
    Typer.getBitRange w 0 22 = i ∧
    decodeObjectIdentifier w h =
      (Ok (length h),
       h ++ [CObject {[ "type" := PNumber t; "instance" := PNumber i ]}]) ∧
    ∀ opts pre post,
      IOs.readUInt32BE opts
        {| buffer := pre ++ IOs.uint32BEBytes w ++ post; offset := length pre |} =
        (Ok w,
         {| buffer := pre ++ IOs.uint32BEBytes w ++ post;
            offset := (length pre + 4)%nat |}).
Proof.
  intros Hl Ht Hi Rt Ri.
  assert (Typer.setBitRange (Typer.setBitRange 0 22 10 t) 0 22 i =
          Z.lor (Z.shiftl t 22) i) as Hw.
  { rewrite setBitRange_zero by lia. apply setBitRange_low; lia. }
  exists (Z.lor (Z.shiftl t 22) i).
  assert (Typer.getBitRange (Z.lor (Z.shiftl t 22) i) 22 10 = t) as Gt
    by (apply getBitRange_high; lia).
  assert (Typer.getBitRange (Z.lor (Z.shiftl t 22) i) 0 22 = i) as Gi
    by (apply getBitRange_low; lia).
  assert (0 ≤ Z.lor (Z.shiftl t 22) i < 2 ^ 32) as Rw
    by (rewrite lor_shiftl_add by lia; lia).
  split_and!; try assumption; try reflexivity; try apply Rw.
  - rewrite (encodeObjectIdentifier_run _ _ _ Hl). unfold objectIdWord, prop.
    rewrite Ht, Hi. simpl. rewrite Hw. reflexivity.
  - unfold decodeObjectIdentifier. cbv zeta. rewrite Gt, Gi. reflexivity.
  - intros opts pre post. apply readUInt32BE_bytes, Rw.
Qed.

(** The theorem at type 1023, instance 4194303: the word is 0xFFFFFFFF. *)
Lemma decode_encode_objectId_witness :
  ∃ w,
    encodeObjectIdentifier 1%nat
      (Examples.objectId_heap (Examples.objectId 1023 4194303) ∅) =
      (Ok w, Examples.objectId_heap (Examples.objectId 1023 4194303) ∅) ∧
    w = 0xFFFFFFFF ∧
    decodeObjectIdentifier w
      (Examples.objectId_heap (Examples.objectId 1023 4194303) ∅) =
      (Ok 5%nat,
       Examples.objectId_heap (Examples.objectId 1023 4194303) ∅
       ++ [CObject (Examples.objectId 1023 4194303)]).
Proof.
  destruct (decode_encode_objectId
              (Examples.objectId_heap (Examples.objectId 1023 4194303) ∅)
              1%nat (Examples.objectId 1023 4194303) 1023 4194303
              eq_refl eq_refl eq_refl ltac:(lia) ltac:(lia))
    as (w & Henc & Hw & _ & _ & _ & Hdec & _).
  exists w. split; [exact Henc|]. split; [exact Hw | exact Hdec].
Defined.

Lemma isEqualObjectId_run h a b oa ob :
  payload h a = Some oa → payload h b = Some ob →
  isEqualObjectId a b h =
    (Ok (strict_eq (prop oa "type") (prop ob "type")
         && strict_eq (prop oa "instance") (prop ob "instance")), h).
Proof.
  intros Pa Pb. unfold isEqualObjectId.
  rewrite (bind_ok _ _ _ _ _ (ownProps_run _ _ _ Pa)).
  rewrite (bind_ok _ _ _ _ _ (ownProps_run _ _ _ Pb)). reflexivity.
Qed.

(** Both comparisons of [isEqualObjectId] as one proposition. *)
Lemma strict_eq_both (o o2 : Object) :
  strict_eq (prop o "type") (prop o2 "type")
  && strict_eq (prop o "instance") (prop o2 "instance") =
  bool_decide (prop o2 "type" = prop o "type" ∧
               prop o2 "instance" = prop o "instance").
Proof.
  unfold strict_eq. rewrite <- bool_decide_and.
  apply bool_decide_ext. split; intros [? ?]; split; congruence.
Qed.

(** C9. [isEqual] returns [false] for [undefined] and [null]; for a raw
    object, and for another [BACnetObjectId], it returns whether the type
    and the instance of the comparand both equal the stored ones; it never
    throws.  (The copies [this.value] and [data.value] take are the only
    change to the heap.) *)
Theorem isEqual_structural (h : Heap) (this : loc) i o :
  h !! this = Some (CObjectId i) →
  h !! data i = Some (CObject o) →
  (∀ v, lodash.isNil v = true → isEqual this v h = (Ok false, h)) ∧
  (∀ l o2, h !! l = Some (CObject o2) →
     isEqual this (VRef l) h =
       (Ok (bool_decide (prop o2 "type" = prop o "type" ∧
                         prop o2 "instance" = prop o "instance")),
        h ++ [CObject o])) ∧
  (∀ l j o2, h !! l = Some (CObjectId j) → h !! data j = Some (CObject o2) →
     isEqual this (VRef l) h =
       (Ok (bool_decide (prop o2 "type" = prop o "type" ∧
                         prop o2 "instance" = prop o "instance")),
        h ++ [CObject o; CObject o2])).
Proof.
  intros Hthis Hdata. split_and!.
  - intros v Hnil. unfold isEqual. rewrite Hnil. reflexivity.
  - intros l o2 Hl. unfold isEqual. cbn [lodash.isNil].
    rewrite (bind_ok _ _ _ _ _ (load_run _ _ _ Hl)).
    rewrite (bind_ok _ _ _ _ _ (oid_getValue_run _ _ _ _ Hthis Hdata)).
    erewrite isEqualObjectId_run by (apply payload_ref; heap_lookup).
    rewrite strict_eq_both. reflexivity.
  - intros l j o2 Hl Hj. unfold isEqual. cbn [lodash.isNil].
    rewrite (bind_ok _ _ _ _ _ (load_run _ _ _ Hl)).
    rewrite (bind_ok _ _ _ _ _ (oid_getValue_run _ _ _ _ Hthis Hdata)).
    erewrite bind_ok; [|eapply oid_getValue_run; heap_lookup].
    erewrite isEqualObjectId_run by (apply payload_ref; heap_lookup).
    rewrite strict_eq_both, <- app_assoc. reflexivity.
Qed.

(** The theorem at the identifier (8, 5) compared with [null], with a raw
    object (8, 5) and with another instance storing (8, 5). *)
Lemma isEqual_structural_witness :
  isEqual 0%nat (VPrim PNull)
    (Examples.objectId_heap (Examples.objectId 8 5) (Examples.objectId 8 5)) =
    (Ok false,
     Examples.objectId_heap (Examples.objectId 8 5) (Examples.objectId 8 5)) ∧
  isEqual 0%nat (VRef 2%nat)
    (Examples.objectId_heap (Examples.objectId 8 5) (Examples.objectId 8 5)) =
    (Ok true,
     Examples.objectId_heap (Examples.objectId 8 5) (Examples.objectId 8 5)
     ++ [CObject (Examples.objectId 8 5)]) ∧
  isEqual 0%nat (VRef 3%nat)
    (Examples.objectId_heap (Examples.objectId 8 5) (Examples.objectId 8 5)) =
    (Ok true,
     Examples.objectId_heap (Examples.objectId 8 5) (Examples.objectId 8 5)
     ++ [CObject (Examples.objectId 8 5); CObject (Examples.objectId 8 5)]).
Proof.
  destruct (isEqual_structural
              (Examples.objectId_heap (Examples.objectId 8 5) (Examples.objectId 8 5))
              0%nat {| tag := None; data := 1%nat |} (Examples.objectId 8 5)
              eq_refl eq_refl) as (Hnil & Hraw & Hinst).
  split; [exact (Hnil (VPrim PNull) eq_refl)|].
  split.
  - exact (Hraw 2%nat (Examples.objectId 8 5) eq_refl).
  - exact (Hinst 3%nat {| tag := None; data := 2%nat |} (Examples.objectId 8 5)
             eq_refl eq_refl).
Defined.

Lemma oid_writeValue_run PropertyType (h : Heap) (this writer : loc) i o w :
  h !! this = Some (CObjectId i) →
  h !! data i = Some (CObject o) →
  h !! writer = Some (CWriter w) →
  writeValue PropertyType this writer h =
    (Ok tt,
     <[writer := CWriter {| written :=
          written w ++ IOs.tagBytes (Enums.objectIdentifier PropertyType) 0 4
                    ++ IOs.uint32BEBytes (objectIdWord o) |}]> h).
Proof.
  intros Hthis Hdata Hwriter. unfold writeValue, writeParam. cbn [num type].
  erewrite bind_ok; [|eapply withWriter_ok; [heap_lookup|apply TagProps.writeTag_run]].
  erewrite bind_ok; [|apply oid_self_run; heap_lookup].
  erewrite bind_ok; [|apply encodeObjectIdentifier_run; heap_lookup].
  erewrite withWriter_ok; [|heap_lookup|reflexivity].
  cbn [written]. rewrite !list_insert_insert_eq, <- !app_assoc. reflexivity.
Qed.

(** What a rejected payload leaves behind: the copy [_.clone] made of it,
    if it was an object. *)
Lemma oid_clone_rejected h v o :
  payload h v = Some o →
  o !! "type" = None ∨ o !! "instance" = None →
  (c ← lodash.clone v; checkAndGetValue c) h =
    (Throw (BACnetError updateValueMessage),
     h ++ (if v is VRef _ then [CObject o] else [])).
Proof.
  intros P Hmiss. destruct v as [p|l].
  - cbn [lodash.clone]. rewrite app_nil_r.
    apply (checkAndGetValue_rejects h (VPrim p) o P Hmiss).
  - unfold payload in P. destruct (h !! l) as [[o'| | | | |]|] eqn:E; try discriminate.
    injection P as ->.
    rewrite (bind_ok _ _ _ _ _ (clone_ref_run _ _ _ E)).
    apply (checkAndGetValue_rejects _ _ o); [|exact Hmiss].
    apply payload_ref. heap_lookup.
Qed.

Lemma oid_readValue_run h this reader opts i r t r' w r'' :
  h !! this = Some (CObjectId i) →
  h !! reader = Some (CReader r) →
  IOs.readTag opts r = (Ok t, r') →
  IOs.readUInt32BE opts r' = (Ok w, r'') →
  readValue this reader opts h =
    (Ok tt,
     <[this := CObjectId {| tag := Some t; data := length h |}]>
       (<[reader := CReader r'']> h)
     ++ [CObject {[ "type" := PNumber (Typer.getBitRange w 22 10);
                    "instance" := PNumber (Typer.getBitRange w 0 22) ]}]).
Proof.
  intros Hthis Hreader Htag Hword.
  assert (this ≠ reader) as Hne by (intros ->; congruence).
  pose proof (lookup_lt_Some _ _ _ Hthis) as Hlt.
  unfold readValue.
  erewrite bind_ok; [|eapply withReader_ok; [heap_lookup|exact Htag]].
  erewrite bind_ok; [|apply oid_set_tag_run; heap_lookup].
  erewrite bind_ok; [|eapply withReader_ok; [heap_lookup|exact Hword]].
  erewrite bind_ok; [|reflexivity].
  erewrite oid_set_data_run by heap_lookup.
  cbn [tag data]. rewrite !length_insert.
  rewrite insert_app_l by (rewrite !length_insert; exact Hlt).
  rewrite (list_insert_insert_ne _ reader this) by congruence.
  rewrite !list_insert_insert_eq. reflexivity.
Qed.

(** What [writeValue] appends for an identifier of 10 and 22 bits,
    [readValue] reads back: the tag of the object identifier type, and a
    stored object with the same type and instance. *)
Lemma oid_write_read_roundtrip PropertyType h this reader opts i (o : Object) t n pre post :
  h !! this = Some (CObjectId i) →
  h !! reader =
    Some (CReader {| buffer := pre ++ (IOs.tagBytes (Enums.objectIdentifier PropertyType) 0 4
                                       ++ IOs.uint32BEBytes (objectIdWord o)) ++ post;
                     offset := length pre |}) →
  o !! "type" = Some (PNumber t) → o !! "instance" = Some (PNumber n) →
  0 ≤ t ≤ 1023 → 0 ≤ n ≤ 4194303 →
  0 ≤ Enums.objectIdentifier PropertyType ≤ 254 →
  ∃ r',
    readValue this reader opts h =
      (Ok tt,
       <[this := CObjectId {| tag := Some {| num := Enums.objectIdentifier PropertyType;
                                             type := Enums.TagType.application;
                                             value := Some 4 |};
                              data := length h |}]>
         (<[reader := CReader r']> h)
       ++ [CObject {[ "type" := PNumber t; "instance" := PNumber n ]}]) ∧
    offset r' = (length pre
                 + length (IOs.tagBytes (Enums.objectIdentifier PropertyType) 0 4
                           ++ IOs.uint32BEBytes (objectIdWord o)))%nat.
Proof.
  intros Hthis Hreader Ht Hn Rt Rn Rnum.
  assert (objectIdWord o = Z.lor (Z.shiftl t 22) n) as Hw.
  { unfold objectIdWord, prop. rewrite Ht, Hn. simpl.
    rewrite setBitRange_zero by lia. apply setBitRange_low; lia. }
  assert (0 ≤ objectIdWord o < 2 ^ 32) as Rw
    by (rewrite Hw, lor_shiftl_add by lia; lia).
  set (T := IOs.tagBytes (Enums.objectIdentifier PropertyType) 0 4) in *.
  set (W := IOs.uint32BEBytes (objectIdWord o)) in *.
  pose proof (TagProps.readTag_tagBytes _ 0 4 opts pre (W ++ post) Rnum
                ltac:(lia) ltac:(lia)) as Htag.
  fold T in Htag. rewrite (app_assoc T W post) in Htag.
  pose proof (readUInt32BE_bytes _ opts (pre ++ T) post Rw) as Hword.
  fold W in Hword.
  rewrite <- (app_assoc pre T (W ++ post)), (app_assoc T W post), length_app in Hword.
  eexists. split.
  - rewrite (oid_readValue_run _ _ _ _ _ _ _ _ _ _ Hthis Hreader Htag Hword).
    rewrite Hw, getBitRange_high, getBitRange_low by lia. reflexivity.
  - cbn [offset]. rewrite !length_app. unfold W, IOs.uint32BEBytes. simpl. lia.
Qed.

(** A payload with both properties is taken: the instance stores a copy
    of it. *)
Lemma oid_constructor_accepts h l o :
  h !! l = Some (CObject o) →
  is_Some (o !! "type") → is_Some (o !! "instance") →
  constructor (VRef l) h =
    (Ok (S (length h)),
     h ++ [CObject o; CObjectId {| tag := None; data := length h |}]).
Proof.
  intros E Ht Hi. unfold constructor. cbn [lodash.isUndefined].
  erewrite bind_ok;
    [|rewrite (bind_ok _ _ _ _ _ (clone_ref_run _ _ _ E));
      apply (checkAndGetValue_accepts _ _ o); [heap_lookup|assumption..]].
  unfold alloc. rewrite length_app, <- app_assoc. cbn [length app].
  rewrite Nat.add_1_r. reflexivity.
Qed.

Lemma oid_setValue_accepts h this i l o :
  h !! this = Some (CObjectId i) →
  h !! l = Some (CObject o) →
  is_Some (o !! "type") → is_Some (o !! "instance") →
  setValue this (VRef l) h =
    (Ok tt, <[this := CObjectId {| tag := tag i; data := length h |}]>
              (h ++ [CObject o])).
Proof.
  intros Hthis E Ht Hi. unfold setValue.
  rewrite (bind_ok _ _ _ _ _ (clone_ref_run _ _ _ E)).
  erewrite bind_ok;
    [|apply (checkAndGetValue_accepts _ _ o); [heap_lookup|assumption..]].
  apply oid_set_data_run. heap_lookup.
Qed.

Lemma oid_constructor_rejects h v o :
  payload h v = Some o →
  lodash.isUndefined v = false →
  o !! "type" = None ∨ o !! "instance" = None →
  constructor v h =
    (Throw (BACnetError updateValueMessage),
     h ++ (if v is VRef _ then [CObject o] else [])).
Proof.
  intros P Hdef Hmiss. unfold constructor. rewrite Hdef.
  erewrite bind_throw; [reflexivity|].
  apply oid_clone_rejected; assumption.
Qed.

Lemma oid_setValue_rejects h this v o :
  payload h v = Some o →
  o !! "type" = None ∨ o !! "instance" = None →
  setValue this v h =
    (Throw (BACnetError updateValueMessage),
     h ++ (if v is VRef _ then [CObject o] else [])).
Proof.
  intros P Hmiss. unfold setValue.
  pose proof (oid_clone_rejected h v o P Hmiss) as R.
  rewrite bind_run in R. rewrite bind_run.
  destruct (lodash.clone v h) as [[c|e] h1];
    [|injection R as -> ->; reflexivity].
  erewrite bind_throw; [reflexivity|exact R].
Qed.

End ObjectIdProps.

(** ** Construction, update and reading of the compound values *)

Module CompoundProps.

(** A cell of [h] is untouched by a change to the cell allocated next. *)
Lemma lookup_mutated_copy (h : Heap) (l : loc) (c c' c'' : Cell) :
  h !! l = Some c → <[length h := c']> (h ++ [c'']) !! l = Some c.
Proof.
  intros E. pose proof (lookup_fresh _ _ _ E).
  rewrite list_lookup_insert_ne by congruence. apply lookup_alloc_old, E.
Qed.

Lemma assignField_run (h : Heap) (l : loc) (o : Object) (f : string) (p : Prim) :
  h !! l = Some (CObject o) →
  assignField l f p h = (Ok tt, <[l := CObject (<[f := p]> o)]> h).
Proof.
  intros E. unfold assignField.
  rewrite (bind_ok _ _ _ _ _ (object_run _ _ _ E)). reflexivity.
Qed.

(** C6. [BACnetStatusFlags] takes any flags payload, absent or partial, in
    the constructor and in [setValue]: the stored object has the payload's
    properties and [false] for each flag the payload leaves out, and
    nothing is thrown.  [BACnetObjectId] throws in the constructor (given a
    payload) and in [setValue] when the payload has no [type] or no
    [instance]: no instance is made, and only the copy of the payload is
    left behind. *)
Theorem validation_asymmetry :
  (∀ (h : Heap) v o,
     payload h v = Some o →
     BACnetStatusFlags.constructor v h =
       (Ok (S (length h)),
        h ++ [CObject (o ∪ BACnetStatusFlags.defaults);
              CStatusFlags {| tag := None; data := length h |}])) ∧
  (∀ (h : Heap) (this : loc) i v o,
     h !! this = Some (CStatusFlags i) →
     payload h v = Some o →
     BACnetStatusFlags.setValue this v h =
       (Ok tt, <[this := CStatusFlags {| tag := tag i; data := length h |}]>
                 (h ++ [CObject (o ∪ BACnetStatusFlags.defaults)]))) ∧
  (∀ (o : Object) f,
     f ∈ ["inAlarm"; "fault"; "overridden"; "outOfService"] →
     (o !! f = None → (o ∪ BACnetStatusFlags.defaults) !! f = Some (PBool false)) ∧
     (∀ p, o !! f = Some p → (o ∪ BACnetStatusFlags.defaults) !! f = Some p)) ∧
  (∀ (h : Heap) v o,
     payload h v = Some o →
     lodash.isUndefined v = false →
     o !! "type" = None ∨ o !! "instance" = None →
     BACnetObjectId.constructor v h =
       (Throw (BACnetError BACnetObjectId.updateValueMessage),
        h ++ (if v is VRef _ then [CObject o] else []))) ∧
  (∀ (h : Heap) (this : loc) v o,
     payload h v = Some o →
     o !! "type" = None ∨ o !! "instance" = None →
     BACnetObjectId.setValue this v h =
       (Throw (BACnetError BACnetObjectId.updateValueMessage),
        h ++ (if v is VRef _ then [CObject o] else []))).
Proof.
  split_and!.
  - apply StatusFlagsProps.status_constructor_run.
  - apply StatusFlagsProps.status_setValue_run.
  - apply StatusFlagsProps.defaults_fill.
  - apply ObjectIdProps.oid_constructor_rejects.
  - apply ObjectIdProps.oid_setValue_rejects.
Qed.

(** The theorem at an absent and at a partial flags payload, and at an
    identifier payload without [instance]. *)
Lemma validation_asymmetry_witness :
  BACnetStatusFlags.constructor (VPrim PUndefined) [] =
    (Ok 1%nat,
     [CObject (∅ ∪ BACnetStatusFlags.defaults);
      CStatusFlags {| tag := None; data := 0%nat |}]) ∧
  BACnetStatusFlags.setValue 0%nat (VRef 1%nat)
    (Examples.status_heap Examples.inAlarm_only_given []) =
    (Ok tt,
     <[0%nat := CStatusFlags {| tag := None; data := 4%nat |}]>
       (Examples.status_heap Examples.inAlarm_only_given []
        ++ [CObject (Examples.inAlarm_only_given ∪ BACnetStatusFlags.defaults)])) ∧
  (Examples.inAlarm_only_given ∪ BACnetStatusFlags.defaults) !! "fault"
    = Some (PBool false) ∧
  BACnetObjectId.constructor (VRef 2%nat)
    (Examples.objectId_heap (Examples.objectId 8 5) Examples.type_only) =
    (Throw (BACnetError BACnetObjectId.updateValueMessage),
     Examples.objectId_heap (Examples.objectId 8 5) Examples.type_only
     ++ [CObject Examples.type_only]) ∧
  BACnetObjectId.setValue 0%nat (VRef 2%nat)
    (Examples.objectId_heap (Examples.objectId 8 5) Examples.type_only) =
    (Throw (BACnetError BACnetObjectId.updateValueMessage),
     Examples.objectId_heap (Examples.objectId 8 5) Examples.type_only
     ++ [CObject Examples.type_only]).
Proof.
  destruct validation_asymmetry as (Hnew & Hset & Hfill & Hreject & Hreject').
  split_and!.
  - exact (Hnew [] (VPrim PUndefined) ∅ eq_refl).
  - exact (Hset (Examples.status_heap Examples.inAlarm_only_given []) 0%nat
             {| tag := None; data := 1%nat |} (VRef 1%nat)
             Examples.inAlarm_only_given eq_refl eq_refl).
  - apply (proj1 (Hfill Examples.inAlarm_only_given "fault"
                      ltac:(apply list_elem_of_In; simpl; tauto))).
    reflexivity.
  - exact (Hreject (Examples.objectId_heap (Examples.objectId 8 5) Examples.type_only)
             (VRef 2%nat) Examples.type_only eq_refl eq_refl (or_intror eq_refl)).
  - exact (Hreject' (Examples.objectId_heap (Examples.objectId 8 5) Examples.type_only)
             0%nat (VRef 2%nat) Examples.type_only eq_refl (or_intror eq_refl)).
Defined.

(** C8. [getValue] of a [BACnetStatusFlags] and of a [BACnetObjectId]
    returns a reference to a new object with the properties of the stored
    one.  Assigning to any property of the returned object leaves the
    instance and its stored object as they were: a later [getValue] returns
    the same properties again and [writeValue] appends the same bytes. *)
Theorem getValue_defensive_copy :
  (∀ PropertyType (h : Heap) (this : loc) i o,
     h !! this = Some (CStatusFlags i) →
     h !! data i = Some (CObject o) →
     BACnetStatusFlags.getValue this h = (Ok (VRef (length h)), h ++ [CObject o]) ∧
     length h ≠ data i ∧
     ∀ f p,
       let h2 := <[length h := CObject (<[f := p]> o)]> (h ++ [CObject o]) in
       assignField (length h) f p (h ++ [CObject o]) = (Ok tt, h2) ∧
       h2 !! this = Some (CStatusFlags i) ∧
       h2 !! data i = Some (CObject o) ∧
       BACnetStatusFlags.getValue this h2 =
         (Ok (VRef (length h2)), h2 ++ [CObject o]) ∧
       ∀ writer w, h !! writer = Some (CWriter w) →
         ∃ bytes,
           BACnetStatusFlags.writeValue PropertyType this writer h =
             (Ok tt, <[writer := CWriter {| written := written w ++ bytes |}]> h) ∧
           BACnetStatusFlags.writeValue PropertyType this writer h2 =
             (Ok tt, <[writer := CWriter {| written := written w ++ bytes |}]> h2)) ∧
  (∀ PropertyType (h : Heap) (this : loc) i o,
     h !! this = Some (CObjectId i) →
     h !! data i = Some (CObject o) →
     BACnetObjectId.getValue this h = (Ok (VRef (length h)), h ++ [CObject o]) ∧
     length h ≠ data i ∧
     ∀ f p,
       let h2 := <[length h := CObject (<[f := p]> o)]> (h ++ [CObject o]) in
       assignField (length h) f p (h ++ [CObject o]) = (Ok tt, h2) ∧
       h2 !! this = Some (CObjectId i) ∧
       h2 !! data i = Some (CObject o) ∧
       BACnetObjectId.getValue this h2 =
         (Ok (VRef (length h2)), h2 ++ [CObject o]) ∧
       ∀ writer w, h !! writer = Some (CWriter w) →
         ∃ bytes,
           BACnetObjectId.writeValue PropertyType this writer h =
             (Ok tt, <[writer := CWriter {| written := written w ++ bytes |}]> h) ∧
           BACnetObjectId.writeValue PropertyType this writer h2 =
             (Ok tt, <[writer := CWriter {| written := written w ++ bytes |}]> h2)).
Proof.
  split.
  - intros PT h this i o Hthis Hdata.
    split; [apply (StatusFlagsProps.status_getValue_run _ _ _ _ Hthis Hdata)|].
    split; [apply not_eq_sym, (lookup_fresh _ _ _ Hdata)|].
    intros f p h2.
    assert (h2 !! this = Some (CStatusFlags i)) as Hthis2
      by apply (lookup_mutated_copy _ _ _ _ _ Hthis).
    assert (h2 !! data i = Some (CObject o)) as Hdata2
      by apply (lookup_mutated_copy _ _ _ _ _ Hdata).
    split_and!; try assumption.
    + apply assignField_run, lookup_alloc_new.
    + apply (StatusFlagsProps.status_getValue_run _ _ _ _ Hthis2 Hdata2).
    + intros writer w Hwriter. eexists. split.
      * apply (StatusFlagsProps.status_writeValue_run PT _ _ _ _ _ _ Hthis Hdata Hwriter).
      * apply (StatusFlagsProps.status_writeValue_run PT _ _ _ _ _ _ Hthis2 Hdata2).
        apply (lookup_mutated_copy _ _ _ _ _ Hwriter).
  - intros PT h this i o Hthis Hdata.
    split; [apply (ObjectIdProps.oid_getValue_run _ _ _ _ Hthis Hdata)|].
    split; [apply not_eq_sym, (lookup_fresh _ _ _ Hdata)|].
    intros f p h2.
    assert (h2 !! this = Some (CObjectId i)) as Hthis2
      by apply (lookup_mutated_copy _ _ _ _ _ Hthis).
    assert (h2 !! data i = Some (CObject o)) as Hdata2
      by apply (lookup_mutated_copy _ _ _ _ _ Hdata).
    split_and!; try assumption.
    + apply assignField_run, lookup_alloc_new.
    + apply (ObjectIdProps.oid_getValue_run _ _ _ _ Hthis2 Hdata2).
    + intros writer w Hwriter. eexists. split.
      * apply (ObjectIdProps.oid_writeValue_run PT _ _ _ _ _ _ Hthis Hdata Hwriter).
      * apply (ObjectIdProps.oid_writeValue_run PT _ _ _ _ _ _ Hthis2 Hdata2).
        apply (lookup_mutated_copy _ _ _ _ _ Hwriter).
Qed.

(** The theorem at flags with only [inAlarm] set, the copy's [inAlarm]
    then cleared, and at the identifier (8, 5), the copy's [instance] then
    set to 6. *)
Lemma getValue_defensive_copy_witness :
  (BACnetStatusFlags.getValue 0%nat (Examples.status_heap Examples.only_inAlarm []) =
     (Ok (VRef 4%nat),
      Examples.status_heap Examples.only_inAlarm [] ++ [CObject Examples.only_inAlarm]) ∧
   BACnetStatusFlags.getValue 0%nat
     (<[4%nat := CObject (<["inAlarm" := PBool false]> Examples.only_inAlarm)]>
        (Examples.status_heap Examples.only_inAlarm []
         ++ [CObject Examples.only_inAlarm])) =
     (Ok (VRef 5%nat),
      <[4%nat := CObject (<["inAlarm" := PBool false]> Examples.only_inAlarm)]>
        (Examples.status_heap Examples.only_inAlarm []
         ++ [CObject Examples.only_inAlarm])
      ++ [CObject Examples.only_inAlarm])) ∧
  (BACnetObjectId.getValue 0%nat
     (Examples.objectId_heap (Examples.objectId 8 5) ∅) =
     (Ok (VRef 5%nat),
      Examples.objectId_heap (Examples.objectId 8 5) ∅
      ++ [CObject (Examples.objectId 8 5)]) ∧
   BACnetObjectId.getValue 0%nat
     (<[5%nat := CObject (<["instance" := PNumber 6]> (Examples.objectId 8 5))]>
        (Examples.objectId_heap (Examples.objectId 8 5) ∅
         ++ [CObject (Examples.objectId 8 5)])) =
     (Ok (VRef 6%nat),
      <[5%nat := CObject (<["instance" := PNumber 6]> (Examples.objectId 8 5))]>
        (Examples.objectId_heap (Examples.objectId 8 5) ∅
         ++ [CObject (Examples.objectId 8 5)])
      ++ [CObject (Examples.objectId 8 5)])).
Proof.
  split.
  - destruct (proj1 getValue_defensive_copy Examples.PropertyType
                (Examples.status_heap Examples.only_inAlarm []) 0%nat
                {| tag := None; data := 1%nat |} Examples.only_inAlarm
                eq_refl eq_refl) as (Hget & _ & Hafter).
    destruct (Hafter "inAlarm" (PBool false)) as (_ & _ & _ & Hget2 & _).
    split; [exact Hget | exact Hget2].
  - destruct (proj2 getValue_defensive_copy Examples.PropertyType
                (Examples.objectId_heap (Examples.objectId 8 5) ∅) 0%nat
                {| tag := None; data := 1%nat |} (Examples.objectId 8 5)
                eq_refl eq_refl) as (Hget & _ & Hafter).
    destruct (Hafter "instance" (PNumber 6)) as (_ & _ & _ & Hget2 & _).
    split; [exact Hget | exact Hget2].
Defined.

(** C10. A [setValue] whose argument fails the check throws before the
    assignment.  For [BACnetBoolean] the heap is exactly what it was.  For
    [BACnetObjectId] every cell that was there is what it was, the instance
    (its tag, the reference to its stored object) and the stored object
    among them; the heap only gains the copy of the rejected payload. *)
Theorem failed_setValue_no_effect :
  (∀ (h : Heap) (this : loc) v,
     lodash.isBoolean v = false →
     BACnetBoolean.setValue this v h =
       (Throw (BACnetError BACnetBoolean.updateValueMessage), h)) ∧
  (∀ (h : Heap) (this : loc) i d v o,
     h !! this = Some (CObjectId i) →
     h !! data i = Some (CObject d) →
     payload h v = Some o →
     o !! "type" = None ∨ o !! "instance" = None →
     ∃ h',
       BACnetObjectId.setValue this v h =
         (Throw (BACnetError BACnetObjectId.updateValueMessage), h') ∧
       h' !! this = Some (CObjectId i) ∧
       h' !! data i = Some (CObject d) ∧
       ∀ l c, h !! l = Some c → h' !! l = Some c).
Proof.
  split.
  - intros h this v Hv. unfold BACnetBoolean.setValue, BACnetBoolean.checkAndGetValue.
    rewrite Hv. reflexivity.
  - intros h this i d v o Hthis Hdata P Hmiss.
    eexists. split; [apply (ObjectIdProps.oid_setValue_rejects h this v o P Hmiss)|].
    split_and!; intros; apply lookup_app_l_Some; assumption.
Qed.

(** The theorem at a number given to a [BACnetBoolean] and at a payload
    without [instance] given to a [BACnetObjectId]. *)
Lemma failed_setValue_no_effect_witness :
  BACnetBoolean.setValue 0%nat (VPrim (PNumber 1)) (Examples.boolean_heap true []) =
    (Throw (BACnetError BACnetBoolean.updateValueMessage),
     Examples.boolean_heap true []) ∧
  ∃ h',
    BACnetObjectId.setValue 0%nat (VRef 2%nat)
      (Examples.objectId_heap (Examples.objectId 8 5) Examples.type_only) =
      (Throw (BACnetError BACnetObjectId.updateValueMessage), h') ∧
    h' !! 0%nat = Some (CObjectId {| tag := None; data := 1%nat |}) ∧
    h' !! 1%nat = Some (CObject (Examples.objectId 8 5)).
Proof.
  split.
  - exact (proj1 failed_setValue_no_effect (Examples.boolean_heap true []) 0%nat
             (VPrim (PNumber 1)) eq_refl).
  - destruct (proj2 failed_setValue_no_effect
                (Examples.objectId_heap (Examples.objectId 8 5) Examples.type_only)
                0%nat {| tag := None; data := 1%nat |} (Examples.objectId 8 5)
                (VRef 2%nat) Examples.type_only eq_refl eq_refl eq_refl
                (or_intror eq_refl)) as (h' & Hrun & Hthis & Hdata & _).
    exists h'. split; [exact Hrun|]. split; [exact Hthis | exact Hdata].
Defined.

End CompoundProps.

(** ** The Complex-ACK envelope *)

Module ComplexACKProps.
Import complexACKPDU.

(** C5. The decoder reads [sequenceNumber] and [windowSize] exactly when
    bit 3 of the first byte is set: an unsegmented envelope takes three
    bytes and a segmented one five before the service data, which is the
    rest of the buffer, unchanged; the scenario's buffer decodes as the
    spec lists. *)
Theorem getFromBuffer_conditional_fields :
  (∀ b0 inv c rest, Z.testbit b0 3 = false →
     getFromBuffer (b0 :: inv :: c :: rest) =
       Ok {| pduType := Z.shiftr b0 4; segmented := false;
             moreFollows := Z.testbit b0 2; invokeId := inv;
             sequenceNumber := None; windowSize := None;
             serviceChoice := c; serviceData := rest |}) ∧
  (∀ b0 inv s w c rest, Z.testbit b0 3 = true →
     getFromBuffer (b0 :: inv :: s :: w :: c :: rest) =
       Ok {| pduType := Z.shiftr b0 4; segmented := true;
             moreFollows := Z.testbit b0 2; invokeId := inv;
             sequenceNumber := Some s; windowSize := Some w;
             serviceChoice := c; serviceData := rest |}) ∧
  (∀ buf e, getFromBuffer buf = Ok e →
     (is_Some (sequenceNumber e) ↔ segmented e = true) ∧
     (is_Some (windowSize e) ↔ segmented e = true) ∧
     (∃ b0, buf !! 0%nat = Some b0 ∧ segmented e = Z.testbit b0 3) ∧
     buf = take (if segmented e then 5 else 3)%nat buf ++ serviceData e ∧
     length buf = ((if segmented e then 5 else 3) + length (serviceData e))%nat) ∧
  (∀ rest, getFromBuffer (0x30 :: 0x01 :: 0x0c :: rest) =
     Ok {| pduType := ComplexACK; segmented := false; moreFollows := false;
           invokeId := 1; sequenceNumber := None; windowSize := None;
           serviceChoice := 0x0c; serviceData := rest |}) ∧
  getFromBuffer test_buffer =
    Ok {| pduType := ComplexACK; segmented := false; moreFollows := false;
          invokeId := 1; sequenceNumber := None; windowSize := None;
          serviceChoice := 0x0c; serviceData := drop 3 test_buffer |}.
Proof.
  assert (∀ b0 inv c rest, Z.testbit b0 3 = false →
     getFromBuffer (b0 :: inv :: c :: rest) =
       Ok {| pduType := Z.shiftr b0 4; segmented := false;
             moreFollows := Z.testbit b0 2; invokeId := inv;
             sequenceNumber := None; windowSize := None;
             serviceChoice := c; serviceData := rest |}) as Hunseg.
  { intros b0 inv c rest Hb. unfold getFromBuffer, decode.
    rewrite bind_run. simpl. rewrite Hb. reflexivity. }
  assert (∀ b0 inv s w c rest, Z.testbit b0 3 = true →
     getFromBuffer (b0 :: inv :: s :: w :: c :: rest) =
       Ok {| pduType := Z.shiftr b0 4; segmented := true;
             moreFollows := Z.testbit b0 2; invokeId := inv;
             sequenceNumber := Some s; windowSize := Some w;
             serviceChoice := c; serviceData := rest |}) as Hseg.
  { intros b0 inv s w c rest Hb. unfold getFromBuffer, decode.
    rewrite bind_run. simpl. rewrite Hb. reflexivity. }
  split; [exact Hunseg|]. split; [exact Hseg|]. split.
  - intros buf e.
    destruct buf as [|b0 [|inv buf]]; try discriminate.
    destruct (Z.testbit b0 3) eqn:Hb.
    + destruct buf as [|s [|w [|c rest]]];
        try (unfold getFromBuffer, decode; rewrite bind_run; simpl; rewrite Hb; discriminate).
      rewrite (Hseg _ _ _ _ _ _ Hb). intros [= <-]. simpl.
      repeat split; eauto; try (intros _; eauto).
    + destruct buf as [|c rest];
        try (unfold getFromBuffer, decode; rewrite bind_run; simpl; rewrite Hb; discriminate).
      rewrite (Hunseg _ _ _ _ Hb). intros [= <-]. simpl.
      repeat split; eauto; try (intros [? ?]; discriminate); try discriminate.
  - split.
    + intros rest. rewrite Hunseg; reflexivity.
    + reflexivity.
Qed.

(** The theorem at an unsegmented and at a segmented envelope with the
    same invoke id and service choice. *)
Lemma getFromBuffer_conditional_fields_witness :
  getFromBuffer [0x30; 0x01; 0x0c; 0x19] =
    Ok {| pduType := 3; segmented := false; moreFollows := false; invokeId := 1;
          sequenceNumber := None; windowSize := None;
          serviceChoice := 0x0c; serviceData := [0x19] |} ∧
  getFromBuffer [0x38; 0x01; 0x05; 0x02; 0x0c; 0x19] =
    Ok {| pduType := 3; segmented := true; moreFollows := false; invokeId := 1;
          sequenceNumber := Some 5; windowSize := Some 2;
          serviceChoice := 0x0c; serviceData := [0x19] |}.
Proof.
  split.
  - exact (proj1 getFromBuffer_conditional_fields 0x30 0x01 0x0c [0x19] eq_refl).
  - exact (proj1 (proj2 getFromBuffer_conditional_fields)
             0x38 0x01 0x05 0x02 0x0c [0x19] eq_refl).
Defined.

End ComplexACKProps.

(** * Further properties of the three classes *)

(** ** BACnetBoolean: construction, update, and the two wire forms *)

Module BooleanWire.
Import BACnetBoolean.

Lemma boolean_readValue_app_run (h : Heap) (this reader : loc) opts i r t r' :
  h !! this = Some (CBoolean i) →
  h !! reader = Some (CReader r) →
  IOs.readTag opts r = (Ok t, r') →
  type t = Enums.TagType.application →
  readValue this reader opts h =
    (Ok tt, <[this := CBoolean {| tag := Some t;
                                  data := truthy (optnum (value t)) |}]>
              (<[reader := CReader r']> h)).
Proof.
  intros Hthis Hreader Htag Hclass.
  assert (this ≠ reader) as Hne by (intros ->; congruence).
  unfold readValue.
  erewrite bind_ok; [|eapply withReader_ok; [heap_lookup|exact Htag]].
  erewrite bind_ok; [|apply BooleanProps.boolean_set_tag_run; heap_lookup].
  rewrite Hclass. simpl.
  erewrite BooleanProps.boolean_set_data_run by heap_lookup.
  rewrite list_insert_insert_eq. reflexivity.
Qed.

Lemma boolean_readValue_ctx_run (h : Heap) (this reader : loc) opts i r t r' b :
  h !! this = Some (CBoolean i) →
  h !! reader = Some (CReader r) →
  IOs.readTag opts r = (Ok t, r') →
  type t = Enums.TagType.context →
  buffer r' !! offset r' = Some b →
  readValue this reader opts h =
    (Ok tt, <[this := CBoolean {| tag := Some t; data := truthy (PNumber b) |}]>
              (<[reader := CReader {| buffer := buffer r';
                                      offset := S (offset r') |}]> h)).
Proof.
  intros Hthis Hreader Htag Hclass Hb.
  assert (this ≠ reader) as Hne by (intros ->; congruence).
  unfold readValue.
  erewrite bind_ok; [|eapply withReader_ok; [heap_lookup|exact Htag]].
  erewrite bind_ok; [|apply BooleanProps.boolean_set_tag_run; heap_lookup].
  rewrite Hclass. simpl.
  erewrite bind_ok; [|eapply withReader_ok; [heap_lookup|apply readUInt8_ok, Hb]].
  erewrite BooleanProps.boolean_set_data_run by heap_lookup.
  cbn [tag data].
  rewrite (list_insert_insert_ne _ reader this) by congruence.
  rewrite !list_insert_insert_eq. reflexivity.
Qed.

Lemma boolean_writeValue_run PropertyType (h : Heap) (this writer : loc) i w :
  h !! this = Some (CBoolean i) →
  h !! writer = Some (CWriter w) →
  writeValue PropertyType this writer h =
    (Ok tt,
     <[writer := CWriter {| written :=
          written w ++ IOs.tagBytes (Enums.boolean PropertyType)
                         Enums.TagType.application (Z.b2z (data i)) |}]> h).
Proof.
  intros Hthis Hwriter. unfold writeValue.
  erewrite bind_ok; [|apply BooleanProps.boolean_self_run; eassumption].
  eapply withWriter_ok; [eassumption|apply TagProps.writeTag_run].
Qed.

(** A 0 or a 1 takes one byte. *)
Lemma writeUIntValue_bit (b : bool) (w : Writer) :
  IOs.writeUIntValue (Z.b2z b) w = (Ok tt, {| written := written w ++ [Z.b2z b] |}).
Proof. destruct b; reflexivity. Qed.

Lemma boolean_writeParam_run (h : Heap) (this writer : loc) i w t :
  h !! this = Some (CBoolean i) →
  h !! writer = Some (CWriter w) →
  writeParam this writer t h =
    (Ok tt,
     <[writer := CWriter {| written :=
          written w ++ IOs.tagBytes (num t) (type t) 1 ++ [Z.b2z (data i)] |}]> h).
Proof.
  intros Hthis Hwriter. unfold writeParam. cbv zeta.
  erewrite bind_ok; [|eapply withWriter_ok; [heap_lookup|apply TagProps.writeTag_run]].
  erewrite bind_ok; [|apply BooleanProps.boolean_self_run; heap_lookup].
  erewrite withWriter_ok; [|heap_lookup|apply writeUIntValue_bit].
  cbn [written]. rewrite list_insert_insert_eq, <- app_assoc. reflexivity.
Qed.

(** X1. A [BACnetBoolean] made without an argument holds [false]; made
    with a boolean it holds that boolean; made with anything else nothing
    is made and the validation error is thrown.  [setValue] with a boolean
    keeps the tag, and [getValue] then returns that boolean. *)
Theorem boolean_construct_set_get :
  (∀ h : Heap,
     constructor (VPrim PUndefined) h =
       (Ok (length h), h ++ [CBoolean {| tag := None; data := false |}])) ∧
  (∀ (h : Heap) b,
     constructor (VPrim (PBool b)) h =
       (Ok (length h), h ++ [CBoolean {| tag := None; data := b |}])) ∧
  (∀ (h : Heap) v,
     lodash.isUndefined v = false → lodash.isBoolean v = false →
     constructor v h = (Throw (BACnetError updateValueMessage), h)) ∧
  (∀ (h : Heap) (this : loc) i b,
     h !! this = Some (CBoolean i) →
     ∃ h',
       setValue this (VPrim (PBool b)) h = (Ok tt, h') ∧
       h' = <[this := CBoolean {| tag := tag i; data := b |}]> h ∧
       getValue this h' = (Ok b, h')).
Proof.
  split_and!.
  - reflexivity.
  - reflexivity.
  - intros h v Hu Hb. unfold constructor, checkAndGetValue. rewrite Hu, Hb.
    reflexivity.
  - intros h this i b Hthis. eexists. split; [|split; [reflexivity|]].
    + unfold setValue, checkAndGetValue. cbn [lodash.isBoolean negb].
      erewrite bind_ok; [|reflexivity].
      apply BooleanProps.boolean_set_data_run, Hthis.
    + unfold getValue.
      erewrite bind_ok; [|apply BooleanProps.boolean_self_run; heap_lookup].
      reflexivity.
Qed.

(** The theorem at [null] given to the constructor and at [true] set on a
    boolean that held [false]. *)
Lemma boolean_construct_set_get_witness :
  constructor (VPrim PNull) [] = (Throw (BACnetError updateValueMessage), []) ∧
  ∃ h',
    setValue 0%nat (VPrim (PBool true)) (Examples.boolean_heap false []) = (Ok tt, h') ∧
    h' = <[0%nat := CBoolean {| tag := None; data := true |}]>
           (Examples.boolean_heap false []) ∧
    getValue 0%nat h' = (Ok true, h').
Proof.
  destruct boolean_construct_set_get as (_ & _ & Hbad & Hset).
  split.
  - exact (Hbad [] (VPrim PNull) eq_refl eq_refl).
  - exact (Hset (Examples.boolean_heap false []) 0%nat
             {| tag := None; data := false |} true eq_refl).
Defined.

(** X2. What [writeValue] appends for a boolean, [readValue] of any
    boolean reads back: it stores the same boolean and the application tag
    of the boolean type, and stops at the end of those bytes. *)
Theorem boolean_write_read_roundtrip PropertyType (h : Heap) (src writer : loc) i w :
  h !! src = Some (CBoolean i) →
  h !! writer = Some (CWriter w) →
  0 ≤ Enums.boolean PropertyType ≤ 254 →
  ∃ bytes,
    writeValue PropertyType src writer h =
      (Ok tt, <[writer := CWriter {| written := written w ++ bytes |}]> h) ∧
    ∀ (h' : Heap) (dst reader : loc) opts j post,
      h' !! dst = Some (CBoolean j) →
      h' !! reader = Some (CReader {| buffer := bytes ++ post; offset := 0 |}) →
      readValue dst reader opts h' =
        (Ok tt,
         <[dst := CBoolean {| tag := Some {| num := Enums.boolean PropertyType;
                                             type := Enums.TagType.application;
                                             value := Some (Z.b2z (data i)) |};
                              data := data i |}]>
           (<[reader := CReader {| buffer := bytes ++ post;
                                   offset := length bytes |}]> h')).
Proof.
  intros Hsrc Hwriter Hnum. eexists. split.
  - apply boolean_writeValue_run; eassumption.
  - intros h' dst reader opts j post Hdst Hreader.
    pose proof (TagProps.readTag_tagBytes _ Enums.TagType.application
                  (Z.b2z (data i)) opts [] post Hnum
                  ltac:(unfold Enums.TagType.application; lia)
                  ltac:(destruct (data i); simpl; lia)) as Htag.
    rewrite (boolean_readValue_app_run _ _ _ _ _ _ _ _ Hdst Hreader Htag eq_refl).
    cbn [value optnum from_option]. destruct (data i); reflexivity.
Qed.

(** The theorem at [true]: the byte written is 0x11, and a boolean that
    held [false] reads [true] from it. *)
Lemma boolean_write_read_roundtrip_witness :
  ∃ bytes,
    writeValue Examples.PropertyType 0%nat 2%nat (Examples.boolean_heap true []) =
      (Ok tt, <[2%nat := CWriter {| written := [] ++ bytes |}]>
                (Examples.boolean_heap true [])) ∧
    bytes = [0x11] ∧
    readValue 0%nat 1%nat None (Examples.boolean_heap false (bytes ++ [])) =
      (Ok tt,
       <[0%nat := CBoolean {| tag := Some {| num := 1; type := 0; value := Some 1 |};
                              data := true |}]>
         (<[1%nat := CReader {| buffer := bytes ++ []; offset := length bytes |}]>
            (Examples.boolean_heap false (bytes ++ [])))).
Proof.
  exists [0x11]. split; [|split; [reflexivity|]].
  - reflexivity.
  - destruct (boolean_write_read_roundtrip Examples.PropertyType
                (Examples.boolean_heap true []) 0%nat 2%nat
                {| tag := None; data := true |} {| written := [] |}
                eq_refl eq_refl ltac:(simpl; lia)) as (bytes & Hw & Hr).
    injection Hw as Hbytes.
    assert (bytes = [0x11]) as -> by (apply (f_equal (drop 0)) in Hbytes; exact (eq_sym Hbytes)).
    exact (Hr (Examples.boolean_heap false ([0x11] ++ [])) 0%nat 1%nat None
             {| tag := None; data := false |} [] eq_refl eq_refl).
Defined.

(** X3. [writeParam] appends a tag with the caller's number and class and
    length 1, then one byte, 0 or 1.  Under a context-class tag [readValue]
    reads the stored boolean back and stops after the byte.  Under an
    application-class tag it does not: [readValue] takes the length 1 for
    the value, stores [true] whatever was written, and leaves the byte
    unread. *)
Theorem boolean_writeParam_read (h : Heap) (src writer : loc) i w (t : Tag) :
  h !! src = Some (CBoolean i) →
  h !! writer = Some (CWriter w) →
  0 ≤ num t ≤ 254 →
  ∃ header,
    writeParam src writer t h =
      (Ok tt, <[writer := CWriter {| written :=
                  written w ++ header ++ [Z.b2z (data i)] |}]> h) ∧
    ∀ (h' : Heap) (dst reader : loc) opts j post,
      h' !! dst = Some (CBoolean j) →
      h' !! reader =
        Some (CReader {| buffer := (header ++ [Z.b2z (data i)]) ++ post;
                         offset := 0 |}) →
      (type t = Enums.TagType.context →
       readValue dst reader opts h' =
         (Ok tt,
          <[dst := CBoolean {| tag := Some {| num := num t; type := type t;
                                              value := Some 1 |};
                               data := data i |}]>
            (<[reader := CReader {| buffer := (header ++ [Z.b2z (data i)]) ++ post;
                                    offset := S (length header) |}]> h'))) ∧
      (type t = Enums.TagType.application →
       readValue dst reader opts h' =
         (Ok tt,
          <[dst := CBoolean {| tag := Some {| num := num t; type := type t;
                                              value := Some 1 |};
                               data := true |}]>
            (<[reader := CReader {| buffer := (header ++ [Z.b2z (data i)]) ++ post;
                                    offset := length header |}]> h'))).
Proof.
  intros Hsrc Hwriter Hnum.
  exists (IOs.tagBytes (num t) (type t) 1). split.
  - apply boolean_writeParam_run; assumption.
  - intros h' dst reader opts j post Hdst Hreader.
    set (T := IOs.tagBytes (num t) (type t) 1) in *.
    rewrite <- app_assoc in Hreader.
    split; intros Hclass.
    + pose proof (TagProps.readTag_tagBytes (num t) (type t) 1 opts []
                    ([Z.b2z (data i)] ++ post) Hnum
                    ltac:(rewrite Hclass; unfold Enums.TagType.context; lia)
                    ltac:(lia)) as Htag.
      fold T in Htag. cbn [app length Nat.add] in Htag.
      erewrite (boolean_readValue_ctx_run _ _ _ _ _ _ _ _ (Z.b2z (data i))
                  Hdst Hreader Htag Hclass).
      * cbn [buffer offset]. rewrite <- app_assoc.
        destruct (data i); reflexivity.
      * cbn [buffer offset]. apply list_lookup_middle. reflexivity.
    + pose proof (TagProps.readTag_tagBytes (num t) (type t) 1 opts []
                    ([Z.b2z (data i)] ++ post) Hnum
                    ltac:(rewrite Hclass; unfold Enums.TagType.application; lia)
                    ltac:(lia)) as Htag.
      fold T in Htag. cbn [app length Nat.add] in Htag.
      rewrite (boolean_readValue_app_run _ _ _ _ _ _ _ _ Hdst Hreader Htag Hclass).
      rewrite <- app_assoc. reflexivity.
Qed.

(** The theorem at [false] written under the context tag 3 and read by a
    boolean that held [true], and at [false] written under the application
    tag 1, which reads as [true]. *)
Lemma boolean_writeParam_read_witness :
  (∃ header,
     writeParam 0%nat 2%nat {| num := 3; type := 1; value := None |}
       (Examples.boolean_heap false []) =
       (Ok tt, <[2%nat := CWriter {| written := [] ++ header ++ [0] |}]>
                 (Examples.boolean_heap false [])) ∧
     readValue 0%nat 1%nat None (Examples.boolean_heap true ((header ++ [0]) ++ [])) =
       (Ok tt,
        <[0%nat := CBoolean {| tag := Some {| num := 3; type := 1; value := Some 1 |};
                               data := false |}]>
          (<[1%nat := CReader {| buffer := (header ++ [0]) ++ [];
                                 offset := S (length header) |}]>
             (Examples.boolean_heap true ((header ++ [0]) ++ []))))) ∧
  (∃ header,
     writeParam 0%nat 2%nat {| num := 1; type := 0; value := None |}
       (Examples.boolean_heap false []) =
       (Ok tt, <[2%nat := CWriter {| written := [] ++ header ++ [0] |}]>
                 (Examples.boolean_heap false [])) ∧
     readValue 0%nat 1%nat None (Examples.boolean_heap false ((header ++ [0]) ++ [])) =
       (Ok tt,
        <[0%nat := CBoolean {| tag := Some {| num := 1; type := 0; value := Some 1 |};
                               data := true |}]>
          (<[1%nat := CReader {| buffer := (header ++ [0]) ++ [];
                                 offset := length header |}]>
             (Examples.boolean_heap false ((header ++ [0]) ++ []))))).
Proof.
  split.
  - destruct (boolean_writeParam_read (Examples.boolean_heap false []) 0%nat 2%nat
                {| tag := None; data := false |} {| written := [] |}
                {| num := 3; type := 1; value := None |}
                eq_refl eq_refl ltac:(simpl; lia)) as (header & Hw & Hr).
    exists header. split; [exact Hw|].
    exact (proj1 (Hr (Examples.boolean_heap true ((header ++ [0]) ++ []))
                    0%nat 1%nat None {| tag := None; data := true |} []
                    eq_refl eq_refl) eq_refl).
  - destruct (boolean_writeParam_read (Examples.boolean_heap false []) 0%nat 2%nat
                {| tag := None; data := false |} {| written := [] |}
                {| num := 1; type := 0; value := None |}
                eq_refl eq_refl ltac:(simpl; lia)) as (header & Hw & Hr).
    exists header. split; [exact Hw|].
    exact (proj2 (Hr (Examples.boolean_heap false ((header ++ [0]) ++ []))
                    0%nat 1%nat None {| tag := None; data := false |} []
                    eq_refl eq_refl) eq_refl).
Defined.

End BooleanWire.

(** ** BACnetStatusFlags: the wire form and the stored flags *)

Module StatusFlagsWire.
Import BACnetStatusFlags.

Lemma status_readValue_run (h : Heap) (this reader : loc) opts i r t r' u v :
  h !! this = Some (CStatusFlags i) →
  h !! reader = Some (CReader r) →
  IOs.readTag opts r = (Ok t, r') →
  buffer r' !! offset r' = Some u →
  buffer r' !! S (offset r') = Some v →
  readValue this reader opts h =
    (Ok tt,
     <[this := CStatusFlags {| tag := Some t; data := length h |}]>
       (<[reader := CReader {| buffer := buffer r'; offset := S (S (offset r')) |}]> h)
     ++ [CObject {[ "inAlarm" := PBool (Z.testbit v 7);
                    "fault" := PBool (Z.testbit v 6);
                    "overridden" := PBool (Z.testbit v 5);
                    "outOfService" := PBool (Z.testbit v 4) ]}]).
Proof.
  intros Hthis Hreader Htag Hu Hv.
  assert (this ≠ reader) as Hne by (intros ->; congruence).
  pose proof (lookup_lt_Some _ _ _ Hthis) as Hlt.
  unfold readValue.
  erewrite bind_ok; [|eapply withReader_ok; [heap_lookup|exact Htag]].
  erewrite bind_ok; [|apply StatusFlagsProps.status_set_tag_run; heap_lookup].
  erewrite bind_ok;
    [|eapply withReader_ok; [heap_lookup|apply readUInt8_ok, Hu]].
  erewrite bind_ok;
    [|eapply withReader_ok; [heap_lookup|apply readUInt8_ok, Hv]].
  cbv zeta. rewrite StatusFlagsProps.status_flags_of_byte.
  erewrite bind_ok; [|reflexivity].
  erewrite StatusFlagsProps.status_set_data_run by heap_lookup.
  cbn [tag data fst snd buffer offset]. rewrite !length_insert.
  rewrite insert_app_l by (rewrite !length_insert; exact Hlt).
  rewrite !list_insert_insert_eq.
  rewrite (list_insert_insert_ne _ reader this) by congruence.
  rewrite !list_insert_insert_eq. reflexivity.
Qed.

(** The byte written for the flags read from the byte [v] is [v] with its
    low four bits cleared. *)
Lemma statusByte_of_read (v : Z) :
  0 ≤ v ≤ 255 →
  statusByte {[ "inAlarm" := PBool (Z.testbit v 7); "fault" := PBool (Z.testbit v 6);
                "overridden" := PBool (Z.testbit v 5);
                "outOfService" := PBool (Z.testbit v 4) ]} = Z.land v 0xF0.
Proof.
  intros Hv.
  destruct (StatusFlagsProps.status_byte_bits (Z.testbit v 7) (Z.testbit v 6)
              (Z.testbit v 5) (Z.testbit v 4)) as (_ & _ & _ & _ & _ & _ & Hval).
  cbv zeta in Hval.
  transitivity (128 * Z.b2z (Z.testbit v 7) + 64 * Z.b2z (Z.testbit v 6)
                + 32 * Z.b2z (Z.testbit v 5) + 16 * Z.b2z (Z.testbit v 4)).
  { rewrite <- Hval. reflexivity. }
  assert (Forall (λ v, 128 * Z.b2z (Z.testbit v 7) + 64 * Z.b2z (Z.testbit v 6)
                       + 32 * Z.b2z (Z.testbit v 5) + 16 * Z.b2z (Z.testbit v 4)
                       = Z.land v 0xF0) (seqZ 0 256)) as Hall.
  { apply (bool_decide_eq_true_1 _). vm_compute. reflexivity. }
  rewrite Forall_seqZ in Hall. apply Hall. lia.
Qed.


(** X4. What [writeValue] appends for stored flags, [readValue] of any
    status-flags value reads back: a new stored object whose four flags
    are the truthiness of the written ones, under the application tag of
    the bit string type with length 2; the reader stops at the end of the
    bytes. *)
Theorem status_write_read_roundtrip PropertyType (h : Heap) (src writer : loc) i o w :
  h !! src = Some (CStatusFlags i) →
  h !! data i = Some (CObject o) →
  h !! writer = Some (CWriter w) →
  0 ≤ Enums.bitString PropertyType ≤ 254 →
  ∃ bytes,
    writeValue PropertyType src writer h =
      (Ok tt, <[writer := CWriter {| written := written w ++ bytes |}]> h) ∧
    ∀ (h' : Heap) (dst reader : loc) opts j post,
      h' !! dst = Some (CStatusFlags j) →
      h' !! reader = Some (CReader {| buffer := bytes ++ post; offset := 0 |}) →
      readValue dst reader opts h' =
        (Ok tt,
         <[dst := CStatusFlags
                    {| tag := Some {| num := Enums.bitString PropertyType;
                                      type := Enums.TagType.application;
                                      value := Some 2 |};
                       data := length h' |}]>
           (<[reader := CReader {| buffer := bytes ++ post;
                                   offset := length bytes |}]> h')
         ++ [CObject {[ "inAlarm" := PBool (truthy (prop o "inAlarm"));
                        "fault" := PBool (truthy (prop o "fault"));
                        "overridden" := PBool (truthy (prop o "overridden"));
                        "outOfService" := PBool (truthy (prop o "outOfService")) ]}]).
Proof.
  intros Hsrc Hdata Hwriter Hnum.
  set (T := IOs.tagBytes (Enums.bitString PropertyType) 0 2).
  exists (T ++ [4; statusByte o]). split.
  - apply (StatusFlagsProps.status_writeValue_run _ _ _ _ _ _ _ Hsrc Hdata Hwriter).
  - intros h' dst reader opts j post Hdst Hreader.
    rewrite <- app_assoc in Hreader.
    pose proof (TagProps.readTag_tagBytes (Enums.bitString PropertyType) 0 2 opts []
                  ([4; statusByte o] ++ post) Hnum ltac:(lia) ltac:(lia)) as Htag.
    fold T in Htag. cbn [app length Nat.add] in Htag, Hreader.
    rewrite (status_readValue_run _ _ _ _ _ _ _ _ 4 (statusByte o)
               Hdst Hreader Htag).
    + cbn [buffer offset].
      destruct (StatusFlagsProps.status_byte_bits
                  (truthy (prop o "inAlarm")) (truthy (prop o "fault"))
                  (truthy (prop o "overridden")) (truthy (prop o "outOfService")))
        as (B7 & B6 & B5 & B4 & _).
      cbv zeta in *. fold (statusByte o) in *. rewrite B7, B6, B5, B4.
      rewrite <- app_assoc, length_app. cbn [app length].
      replace (length T + 2)%nat with (S (S (length T))) by lia. reflexivity.
    + cbn [buffer offset]. apply list_lookup_middle. reflexivity.
    + cbn [buffer offset].
      rewrite lookup_app_r by lia.
      replace (S (length T) - length T)%nat with 1%nat by lia. reflexivity.
Qed.

(** The theorem at flags with only [inAlarm] set, read by a value that
    held the defaults. *)
Lemma status_write_read_roundtrip_witness :
  ∃ bytes,
    writeValue Examples.PropertyType 0%nat 3%nat
      (Examples.status_heap Examples.only_inAlarm []) =
      (Ok tt, <[3%nat := CWriter {| written := [] ++ bytes |}]>
                (Examples.status_heap Examples.only_inAlarm [])) ∧
    readValue 0%nat 2%nat None (Examples.status_heap defaults (bytes ++ [])) =
      (Ok tt,
       <[0%nat := CStatusFlags {| tag := Some {| num := 8; type := 0; value := Some 2 |};
                                  data := 4%nat |}]>
         (<[2%nat := CReader {| buffer := bytes ++ []; offset := length bytes |}]>
            (Examples.status_heap defaults (bytes ++ [])))
       ++ [CObject {[ "inAlarm" := PBool true; "fault" := PBool false;
                      "overridden" := PBool false; "outOfService" := PBool false ]}]).
Proof.
  destruct (status_write_read_roundtrip Examples.PropertyType
              (Examples.status_heap Examples.only_inAlarm []) 0%nat 3%nat
              {| tag := None; data := 1%nat |} Examples.only_inAlarm
              {| written := [] |} eq_refl eq_refl eq_refl ltac:(simpl; lia))
    as (bytes & Hw & Hr).
  exists bytes. split; [exact Hw|].
  exact (Hr (Examples.status_heap defaults (bytes ++ [])) 0%nat 2%nat None
           {| tag := None; data := 1%nat |} [] eq_refl eq_refl).
Defined.

(** X5. Reading and then writing normalises the bytes: whatever tag and
    whatever unused-bits byte were read, [writeValue] after [readValue]
    appends the application tag of the bit string type with length 2, the
    byte 4, and the payload byte that was read with its low four bits
    cleared. *)
Theorem status_read_write_normalises PropertyType (h : Heap)
    (this reader writer : loc) opts i r t r' u v w :
  h !! this = Some (CStatusFlags i) →
  h !! reader = Some (CReader r) →
  h !! writer = Some (CWriter w) →
  IOs.readTag opts r = (Ok t, r') →
  buffer r' !! offset r' = Some u →
  buffer r' !! S (offset r') = Some v →
  0 ≤ v ≤ 255 →
  ∃ h1,
    readValue this reader opts h = (Ok tt, h1) ∧
    writeValue PropertyType this writer h1 =
      (Ok tt,
       <[writer := CWriter {| written :=
            written w ++ IOs.tagBytes (Enums.bitString PropertyType) 0 2
                      ++ [4; Z.land v 0xF0] |}]> h1).
Proof.
  intros Hthis Hreader Hwriter Htag Hu Hv Rv.
  assert (this ≠ reader) as Hne by (intros ->; congruence).
  assert (writer ≠ reader) as Hne' by (intros ->; congruence).
  assert (writer ≠ this) as Hne'' by (intros ->; congruence).
  pose proof (lookup_lt_Some _ _ _ Hthis) as Hlt.
  eexists. split; [apply (status_readValue_run _ _ _ _ _ _ _ _ _ _
                            Hthis Hreader Htag Hu Hv)|].
  rewrite <- (statusByte_of_read v Rv).
  eapply StatusFlagsProps.status_writeValue_run.
  - apply lookup_app_l_Some, list_lookup_insert_eq.
    rewrite length_insert. exact Hlt.
  - cbn [data].
    set (h0 := <[this := _]> (<[reader := _]> h)).
    assert (length h0 = length h) as Hlen
      by (unfold h0; rewrite !length_insert; reflexivity).
    rewrite <- Hlen. apply lookup_alloc_new.
  - apply lookup_app_l_Some.
    rewrite !list_lookup_insert_ne by congruence. exact Hwriter.
Qed.

(** The theorem at the bytes 0x8A (a context tag), 0x07, 0xBF: written
    back they are 0x82, 0x04, 0xB0. *)
Lemma status_read_write_normalises_witness :
  ∃ h1,
    readValue 0%nat 2%nat None
      (Examples.status_heap defaults [0x8A; 0x07; 0xBF]) = (Ok tt, h1) ∧
    writeValue Examples.PropertyType 0%nat 3%nat h1 =
      (Ok tt, <[3%nat := CWriter {| written := [] ++ [0x82] ++ [4; 0xB0] |}]> h1).
Proof.
  exact (status_read_write_normalises Examples.PropertyType
           (Examples.status_heap defaults [0x8A; 0x07; 0xBF]) 0%nat 2%nat 3%nat None
           {| tag := None; data := 1%nat |}
           {| buffer := [0x8A; 0x07; 0xBF]; offset := 0 |}
           {| num := 8; type := 1; value := Some 2 |}
           {| buffer := [0x8A; 0x07; 0xBF]; offset := 1 |} 0x07 0xBF
           {| written := [] |}
           eq_refl eq_refl eq_refl eq_refl eq_refl eq_refl ltac:(lia)).
Defined.



End StatusFlagsWire.

(** ** BACnetObjectId: the wire form *)

Module ObjectIdWire.
Import BACnetObjectId.

Lemma oid_writeParam_run (h : Heap) (this writer : loc) i o w (t : Tag) :
  h !! this = Some (CObjectId i) →
  h !! data i = Some (CObject o) →
  h !! writer = Some (CWriter w) →
  writeParam this writer t h =
    (Ok tt,
     <[writer := CWriter {| written :=
          written w ++ IOs.tagBytes (num t) (type t) 4
                    ++ IOs.uint32BEBytes (objectIdWord o) |}]> h).
Proof.
  intros Hthis Hdata Hwriter. unfold writeParam. cbv zeta.
  erewrite bind_ok; [|eapply withWriter_ok; [heap_lookup|apply TagProps.writeTag_run]].
  erewrite bind_ok; [|apply ObjectIdProps.oid_self_run; heap_lookup].
  erewrite bind_ok; [|apply ObjectIdProps.encodeObjectIdentifier_run; heap_lookup].
  erewrite withWriter_ok; [|heap_lookup|reflexivity].
  cbn [written]. rewrite !list_insert_insert_eq, <- !app_assoc. reflexivity.
Qed.

(** The word of an identifier of 10 and 22 bits. *)
Lemma objectIdWord_in_range (o : Object) (t n : Z) :
  o !! "type" = Some (PNumber t) → o !! "instance" = Some (PNumber n) →
  0 ≤ t ≤ 1023 → 0 ≤ n ≤ 4194303 →
  objectIdWord o = Z.lor (Z.shiftl t 22) n ∧ 0 ≤ objectIdWord o < 2 ^ 32.
Proof.
  intros Ht Hn Rt Rn.
  assert (objectIdWord o = Z.lor (Z.shiftl t 22) n) as Hw.
  { unfold objectIdWord, prop. rewrite Ht, Hn. simpl.
    rewrite setBitRange_zero by lia. apply setBitRange_low; lia. }
  split; [exact Hw|]. rewrite Hw, lor_shiftl_add by lia. lia.
Qed.

(** The two fields of a 32-bit word are in range, and put together again
    they are the word. *)
Lemma decoded_fields (wd : Z) :
  0 ≤ wd < 2 ^ 32 →
  0 ≤ Typer.getBitRange wd 22 10 ≤ 1023 ∧
  0 ≤ Typer.getBitRange wd 0 22 ≤ 4194303 ∧
  Z.lor (Z.shiftl (Typer.getBitRange wd 22 10) 22) (Typer.getBitRange wd 0 22) = wd.
Proof.
  intros Rw. unfold Typer.getBitRange.
  rewrite Z.shiftr_0_r, !Z.land_ones, !Z.shiftr_div_pow2 by lia.
  pose proof (Z.mod_pos_bound (wd / 2 ^ 22) (2 ^ 10) ltac:(lia)) as Hhi.
  pose proof (Z.mod_pos_bound wd (2 ^ 22) ltac:(lia)) as Hlo.
  split; [lia|]. split; [lia|].
  rewrite lor_shiftl_add by lia.
  rewrite (Z.mod_small (wd / 2 ^ 22)).
  - rewrite (Z.div_mod wd (2 ^ 22)) at 3 by lia. lia.
  - split; [apply Z.div_pos; lia|].
    apply Z.div_lt_upper_bound; lia.
Qed.

(** X7. What [writeParam] appends for an identifier of a 10-bit type and
    a 22-bit instance, under any tag number and class, [readValue] of any
    object identifier reads back: a new stored object with the same type
    and instance, under that tag with length 4; the reader stops at the end
    of the bytes.  [writeValue] is [writeParam] under the application tag
    of the object identifier type. *)
Theorem objectId_write_read_roundtrip PropertyType (h : Heap) (src writer : loc)
    i o w t n (tg : Tag) :
  h !! src = Some (CObjectId i) →
  h !! data i = Some (CObject o) →
  h !! writer = Some (CWriter w) →
  o !! "type" = Some (PNumber t) → o !! "instance" = Some (PNumber n) →
  0 ≤ t ≤ 1023 → 0 ≤ n ≤ 4194303 →
  0 ≤ num tg ≤ 254 → 0 ≤ type tg ≤ 1 →
  ∃ bytes,
    writeParam src writer tg h =
      (Ok tt, <[writer := CWriter {| written := written w ++ bytes |}]> h) ∧
    (num tg = Enums.objectIdentifier PropertyType →
     type tg = Enums.TagType.application →
     writeValue PropertyType src writer h =
       (Ok tt, <[writer := CWriter {| written := written w ++ bytes |}]> h)) ∧
    ∀ (h' : Heap) (dst reader : loc) opts j post,
      h' !! dst = Some (CObjectId j) →
      h' !! reader = Some (CReader {| buffer := bytes ++ post; offset := 0 |}) →
      readValue dst reader opts h' =
        (Ok tt,
         <[dst := CObjectId {| tag := Some {| num := num tg; type := type tg;
                                              value := Some 4 |};
                               data := length h' |}]>
           (<[reader := CReader {| buffer := bytes ++ post;
                                   offset := length bytes |}]> h')
         ++ [CObject {[ "type" := PNumber t; "instance" := PNumber n ]}]).
Proof.
  intros Hsrc Hdata Hwriter Ht Hn Rt Rn Rnum Rclass.
  destruct (objectIdWord_in_range o t n Ht Hn Rt Rn) as [Hw Rw].
  set (T := IOs.tagBytes (num tg) (type tg) 4).
  set (W := IOs.uint32BEBytes (objectIdWord o)).
  exists (T ++ W). split_and!.
  - apply (oid_writeParam_run _ _ _ _ _ _ _ Hsrc Hdata Hwriter).
  - intros En Ec.
    rewrite (ObjectIdProps.oid_writeValue_run _ _ _ _ _ _ _ Hsrc Hdata Hwriter).
    unfold T, W. rewrite En, Ec. reflexivity.
  - intros h' dst reader opts j post Hdst Hreader.
    pose proof (TagProps.readTag_tagBytes (num tg) (type tg) 4 opts [] (W ++ post)
                  Rnum Rclass ltac:(lia)) as Htag.
    fold T in Htag. rewrite (app_assoc T W post) in Htag.
    pose proof (readUInt32BE_bytes _ opts T post Rw) as Hword.
    fold W in Hword. rewrite (app_assoc T W post) in Hword.
    cbn [app length Nat.add] in Htag.
    rewrite (ObjectIdProps.oid_readValue_run _ _ _ _ _ _ _ _ _ _
               Hdst Hreader Htag Hword).
    rewrite Hw, getBitRange_high, getBitRange_low by lia.
    rewrite length_app. unfold W at 3, IOs.uint32BEBytes. reflexivity.
Qed.

(** The theorem at the identifier (8, 5) written by [writeValue]: the
    bytes are 0xC4 (number 12, application class, length 4) and 0x02, 0,
    0, 0x05. *)
Lemma objectId_write_read_roundtrip_witness :
  ∃ bytes,
    writeValue Examples.PropertyType 0%nat 4%nat
      (Examples.objectId_heap (Examples.objectId 8 5) ∅) =
      (Ok tt, <[4%nat := CWriter {| written := [] ++ bytes |}]>
                (Examples.objectId_heap (Examples.objectId 8 5) ∅)) ∧
    readValue 0%nat 5%nat None (Scenarios.ids_and_payload ∅ ∅ (bytes ++ [])) =
      (Ok tt,
       <[0%nat := CObjectId {| tag := Some {| num := 12; type := 0; value := Some 4 |};
                               data := 7%nat |}]>
         (<[5%nat := CReader {| buffer := bytes ++ []; offset := length bytes |}]>
            (Scenarios.ids_and_payload ∅ ∅ (bytes ++ [])))
       ++ [CObject (Examples.objectId 8 5)]).
Proof.
  destruct (objectId_write_read_roundtrip Examples.PropertyType
              (Examples.objectId_heap (Examples.objectId 8 5) ∅) 0%nat 4%nat
              {| tag := None; data := 1%nat |} (Examples.objectId 8 5)
              {| written := [] |} 8 5
              {| num := 12; type := 0; value := None |}
              eq_refl eq_refl eq_refl eq_refl eq_refl
              ltac:(lia) ltac:(lia) ltac:(simpl; lia) ltac:(simpl; lia))
    as (bytes & _ & Hw & Hr).
  exists bytes. split; [exact (Hw eq_refl eq_refl)|].
  exact (Hr (Scenarios.ids_and_payload ∅ ∅ (bytes ++ [])) 0%nat 5%nat None
           {| tag := None; data := 1%nat |} [] eq_refl eq_refl).
Defined.

(** X8. Reading and then writing gives the word back: after [readValue]
    has read a 32-bit word, the stored type is at most 1023, the stored
    instance at most 4194303, and [writeValue] appends the application tag
    of the object identifier type with length 4 and the four bytes of that
    same word, whatever tag was read. *)
Theorem objectId_read_write_identity PropertyType (h : Heap)
    (this reader writer : loc) opts i r t r' wd r'' w :
  h !! this = Some (CObjectId i) →
  h !! reader = Some (CReader r) →
  h !! writer = Some (CWriter w) →
  IOs.readTag opts r = (Ok t, r') →
  IOs.readUInt32BE opts r' = (Ok wd, r'') →
  0 ≤ wd < 2 ^ 32 →
  ∃ h1 ty inst,
    readValue this reader opts h = (Ok tt, h1) ∧
    h1 !! this = Some (CObjectId {| tag := Some t; data := length h |}) ∧
    h1 !! length h =
      Some (CObject {[ "type" := PNumber ty; "instance" := PNumber inst ]}) ∧
    0 ≤ ty ≤ 1023 ∧ 0 ≤ inst ≤ 4194303 ∧
    writeValue PropertyType this writer h1 =
      (Ok tt,
       <[writer := CWriter {| written :=
            written w ++ IOs.tagBytes (Enums.objectIdentifier PropertyType) 0 4
                      ++ IOs.uint32BEBytes wd |}]> h1).
Proof.
  intros Hthis Hreader Hwriter Htag Hword Rw.
  assert (this ≠ reader) as Hne by (intros ->; congruence).
  assert (writer ≠ reader) as Hne' by (intros ->; congruence).
  assert (writer ≠ this) as Hne'' by (intros ->; congruence).
  pose proof (lookup_lt_Some _ _ _ Hthis) as Hlt.
  destruct (decoded_fields wd Rw) as (Rty & Rinst & Hjoin).
  set (ty := Typer.getBitRange wd 22 10) in *.
  set (inst := Typer.getBitRange wd 0 22) in *.
  set (h0 := <[this := CObjectId {| tag := Some t; data := length h |}]>
               (<[reader := CReader r'']> h)).
  assert (length h0 = length h) as Hlen
    by (unfold h0; rewrite !length_insert; reflexivity).
  set (d := {[ "type" := PNumber ty; "instance" := PNumber inst ]} : Object).
  assert ((h0 ++ [CObject d]) !! this =
          Some (CObjectId {| tag := Some t; data := length h |})) as H1.
  { apply lookup_app_l_Some, list_lookup_insert_eq.
    rewrite length_insert. exact Hlt. }
  assert ((h0 ++ [CObject d]) !! length h = Some (CObject d)) as H2
    by (rewrite <- Hlen; apply lookup_alloc_new).
  assert ((h0 ++ [CObject d]) !! writer = Some (CWriter w)) as H3.
  { apply lookup_app_l_Some. unfold h0.
    rewrite !list_lookup_insert_ne by congruence. exact Hwriter. }
  exists (h0 ++ [CObject d]), ty, inst. split_and!; try assumption; try lia.
  - apply (ObjectIdProps.oid_readValue_run _ _ _ _ _ _ _ _ _ _
             Hthis Hreader Htag Hword).
  - rewrite (ObjectIdProps.oid_writeValue_run _ _ _ _ _ _ _ H1 H2 H3).
    destruct (objectIdWord_in_range d ty inst eq_refl eq_refl
                ltac:(lia) ltac:(lia)) as [Hw _].
    rewrite Hw, Hjoin. reflexivity.
Qed.

(** The theorem at the bytes 0x1C (a context tag, number 1), 0xFF, 0xC0,
    0x00, 0x01: written back they are 0xC4, 0xFF, 0xC0, 0x00, 0x01. *)
Lemma objectId_read_write_identity_witness :
  ∃ h1 ty inst,
    readValue 0%nat 5%nat None
      (Scenarios.ids_and_payload ∅ ∅ [0x1C; 0xFF; 0xC0; 0x00; 0x01]) = (Ok tt, h1) ∧
    h1 !! 7%nat =
      Some (CObject {[ "type" := PNumber ty; "instance" := PNumber inst ]}) ∧
    0 ≤ ty ≤ 1023 ∧ 0 ≤ inst ≤ 4194303 ∧
    writeValue Examples.PropertyType 0%nat 6%nat h1 =
      (Ok tt,
       <[6%nat := CWriter {| written := [] ++ [0xC4] ++ [0xFF; 0xC0; 0x00; 0x01] |}]> h1).
Proof.
  destruct (objectId_read_write_identity Examples.PropertyType
              (Scenarios.ids_and_payload ∅ ∅ [0x1C; 0xFF; 0xC0; 0x00; 0x01])
              0%nat 5%nat 6%nat None
              {| tag := None; data := 1%nat |}
              {| buffer := [0x1C; 0xFF; 0xC0; 0x00; 0x01]; offset := 0 |}
              {| num := 1; type := 1; value := Some 4 |}
              {| buffer := [0x1C; 0xFF; 0xC0; 0x00; 0x01]; offset := 1 |}
              0xFFC00001
              {| buffer := [0x1C; 0xFF; 0xC0; 0x00; 0x01]; offset := 5 |}
              {| written := [] |}
              eq_refl eq_refl eq_refl eq_refl eq_refl ltac:(lia))
    as (h1 & ty & inst & Hread & _ & Hdata & Rty & Rinst & Hwrite).
  exists h1, ty, inst.
  split; [exact Hread|]. split; [exact Hdata|]. split; [exact Rty|].
  split; [exact Rinst | exact Hwrite].
Defined.

End ObjectIdWire.

(** ** Payloads in, comparisons, and reads that fail *)

Module StateProps.


(** X9. [setValue] stores a copy of the payload, never the payload itself.
    For a [BACnetObjectId] given a payload with both properties, and for a
    [BACnetStatusFlags] given any payload, the stored object is a new one,
    the caller's object is left as it was, and a later assignment to a
    property of the caller's object leaves the stored object, and so what
    [getValue] returns, unchanged. *)
Theorem setValue_copies_payload :
  (∀ (h : Heap) (this l : loc) i o,
     h !! this = Some (CObjectId i) →
     h !! l = Some (CObject o) →
     is_Some (o !! "type") → is_Some (o !! "instance") →
     ∃ h1,
       BACnetObjectId.setValue this (VRef l) h = (Ok tt, h1) ∧
       h1 !! this = Some (CObjectId {| tag := tag i; data := length h |}) ∧
       length h ≠ l ∧
       h1 !! l = Some (CObject o) ∧
       h1 !! length h = Some (CObject o) ∧
       ∀ f p, ∃ h2,
         assignField l f p h1 = (Ok tt, h2) ∧
         h2 !! l = Some (CObject (<[f := p]> o)) ∧
         BACnetObjectId.getValue this h2 = (Ok (VRef (length h2)), h2 ++ [CObject o])) ∧
  (∀ (h : Heap) (this l : loc) i o,
     h !! this = Some (CStatusFlags i) →
     h !! l = Some (CObject o) →
     ∃ h1,
       BACnetStatusFlags.setValue this (VRef l) h = (Ok tt, h1) ∧
       h1 !! this = Some (CStatusFlags {| tag := tag i; data := length h |}) ∧
       length h ≠ l ∧
       h1 !! l = Some (CObject o) ∧
       h1 !! length h = Some (CObject (o ∪ BACnetStatusFlags.defaults)) ∧
       ∀ f p, ∃ h2,
         assignField l f p h1 = (Ok tt, h2) ∧
         h2 !! l = Some (CObject (<[f := p]> o)) ∧
         BACnetStatusFlags.getValue this h2 =
           (Ok (VRef (length h2)),
            h2 ++ [CObject (o ∪ BACnetStatusFlags.defaults)])).
Proof.
  split.
  - intros h this l i o Hthis Hl Ht Hi.
    pose proof (lookup_lt_Some _ _ _ Hthis) as Hlt.
    pose proof (lookup_fresh _ _ _ Hl) as Hfresh.
    pose proof (lookup_fresh _ _ _ Hthis) as Hfresh'.
    assert (this ≠ l) as Hne by (intros ->; congruence).
    set (h1 := <[this := CObjectId {| tag := tag i; data := length h |}]>
                 (h ++ [CObject o])).
    assert (h1 !! this = Some (CObjectId {| tag := tag i; data := length h |})) as H1
      by (apply list_lookup_insert_eq; rewrite length_app; lia).
    assert (h1 !! l = Some (CObject o)) as H2.
    { unfold h1. rewrite list_lookup_insert_ne by congruence.
      apply lookup_alloc_old, Hl. }
    assert (h1 !! length h = Some (CObject o)) as H3.
    { unfold h1. rewrite list_lookup_insert_ne by congruence.
      apply lookup_alloc_new. }
    exists h1. split_and!; try assumption; try congruence.
    + apply ObjectIdProps.oid_setValue_accepts; assumption.
    + intros f p. eexists. split; [apply (CompoundProps.assignField_run _ _ _ _ _ H2)|].
      split; [apply list_lookup_insert_eq; eapply lookup_lt_Some; exact H2|].
      eapply ObjectIdProps.oid_getValue_run.
      * rewrite list_lookup_insert_ne by congruence. exact H1.
      * cbn [data]. rewrite list_lookup_insert_ne by congruence. exact H3.
  - intros h this l i o Hthis Hl.
    pose proof (lookup_lt_Some _ _ _ Hthis) as Hlt.
    pose proof (lookup_fresh _ _ _ Hl) as Hfresh.
    pose proof (lookup_fresh _ _ _ Hthis) as Hfresh'.
    assert (this ≠ l) as Hne by (intros ->; congruence).
    set (d := o ∪ BACnetStatusFlags.defaults).
    set (h1 := <[this := CStatusFlags {| tag := tag i; data := length h |}]>
                 (h ++ [CObject d])).
    assert (h1 !! this = Some (CStatusFlags {| tag := tag i; data := length h |})) as H1
      by (apply list_lookup_insert_eq; rewrite length_app; lia).
    assert (h1 !! l = Some (CObject o)) as H2.
    { unfold h1. rewrite list_lookup_insert_ne by congruence.
      apply lookup_alloc_old, Hl. }
    assert (h1 !! length h = Some (CObject d)) as H3.
    { unfold h1. rewrite list_lookup_insert_ne by congruence.
      apply lookup_alloc_new. }
    exists h1. split_and!; try assumption; try congruence.
    + apply StatusFlagsProps.status_setValue_run; [assumption|].
      apply payload_ref, Hl.
    + intros f p. eexists. split; [apply (CompoundProps.assignField_run _ _ _ _ _ H2)|].
      split; [apply list_lookup_insert_eq; eapply lookup_lt_Some; exact H2|].
      eapply StatusFlagsProps.status_getValue_run.
      * rewrite list_lookup_insert_ne by congruence. exact H1.
      * cbn [data]. rewrite list_lookup_insert_ne by congruence. exact H3.
Qed.

(** The theorem at the payload (8, 5) whose [instance] the caller then
    sets to 6, and at a flags payload whose [fault] the caller then sets to
    [false]. *)
Lemma setValue_copies_payload_witness :
  (∃ h1 h2,
     BACnetObjectId.setValue 0%nat (VRef 2%nat)
       (Scenarios.ids_and_payload (Examples.objectId 8 5) ∅ []) = (Ok tt, h1) ∧
     assignField 2%nat "instance" (PNumber 6) h1 = (Ok tt, h2) ∧
     h2 !! 2%nat = Some (CObject (<["instance" := PNumber 6]> (Examples.objectId 8 5))) ∧
     BACnetObjectId.getValue 0%nat h2 =
       (Ok (VRef (length h2)), h2 ++ [CObject (Examples.objectId 8 5)])) ∧
  (∃ h1 h2,
     BACnetStatusFlags.setValue 0%nat (VRef 2%nat)
       (Scenarios.flags_and_payload Scenarios.mixed_flags) = (Ok tt, h1) ∧
     assignField 2%nat "fault" (PBool false) h1 = (Ok tt, h2) ∧
     h2 !! 2%nat = Some (CObject (<["fault" := PBool false]> Scenarios.mixed_flags)) ∧
     BACnetStatusFlags.getValue 0%nat h2 =
       (Ok (VRef (length h2)),
        h2 ++ [CObject (Scenarios.mixed_flags ∪ BACnetStatusFlags.defaults)])).
Proof.
  split.
  - destruct (proj1 setValue_copies_payload
                (Scenarios.ids_and_payload (Examples.objectId 8 5) ∅ []) 0%nat 2%nat
                {| tag := None; data := 1%nat |} (Examples.objectId 8 5)
                eq_refl eq_refl (ex_intro _ _ eq_refl) (ex_intro _ _ eq_refl))
      as (h1 & Hset & _ & _ & _ & _ & Hafter).
    destruct (Hafter "instance" (PNumber 6)) as (h2 & Hassign & Hl & Hget).
    exists h1, h2. split; [exact Hset|]. split; [exact Hassign|].
    split; [exact Hl | exact Hget].
  - destruct (proj2 setValue_copies_payload
                (Scenarios.flags_and_payload Scenarios.mixed_flags) 0%nat 2%nat
                {| tag := None; data := 1%nat |} Scenarios.mixed_flags
                eq_refl eq_refl)
      as (h1 & Hset & _ & _ & _ & _ & Hafter).
    destruct (Hafter "fault" (PBool false)) as (h2 & Hassign & Hl & Hget).
    exists h1, h2. split; [exact Hset|]. split; [exact Hassign|].
    split; [exact Hl | exact Hget].
Defined.



(** X11. A [readValue] that cannot read the tag throws and leaves the
    instance as it was.  One that has read the tag and then runs out of
    bytes throws the reader's error after it has replaced the instance's
    tag: the stored data stays the old one and no object is made, but the
    instance is not what it was before the call. *)
Theorem failed_readValue_keeps_data :
  (∀ (h : Heap) (this reader : loc) opts r e r',
     h !! reader = Some (CReader r) →
     IOs.readTag opts r = (Throw e, r') →
     BACnetBoolean.readValue this reader opts h =
       (Throw e, <[reader := CReader r']> h) ∧
     BACnetStatusFlags.readValue this reader opts h =
       (Throw e, <[reader := CReader r']> h) ∧
     BACnetObjectId.readValue this reader opts h =
       (Throw e, <[reader := CReader r']> h)) ∧
  (∀ (h : Heap) (this reader : loc) opts i r t r',
     h !! this = Some (CBoolean i) →
     h !! reader = Some (CReader r) →
     IOs.readTag opts r = (Ok t, r') →
     type t = Enums.TagType.context →
     buffer r' !! offset r' = None →
     BACnetBoolean.readValue this reader opts h =
       (Throw OutOfRange,
        <[this := CBoolean {| tag := Some t; data := data i |}]>
          (<[reader := CReader r']> h))) ∧
  (∀ (h : Heap) (this reader : loc) opts i r t r',
     h !! this = Some (CStatusFlags i) →
     h !! reader = Some (CReader r) →
     IOs.readTag opts r = (Ok t, r') →
     buffer r' !! offset r' = None ∨ buffer r' !! S (offset r') = None →
     ∃ r'',
       BACnetStatusFlags.readValue this reader opts h =
         (Throw OutOfRange,
          <[this := CStatusFlags {| tag := Some t; data := data i |}]>
            (<[reader := CReader r'']> h))) ∧
  (∀ (h : Heap) (this reader : loc) opts i r t r' e r'',
     h !! this = Some (CObjectId i) →
     h !! reader = Some (CReader r) →
     IOs.readTag opts r = (Ok t, r') →
     IOs.readUInt32BE opts r' = (Throw e, r'') →
     BACnetObjectId.readValue this reader opts h =
       (Throw e,
        <[this := CObjectId {| tag := Some t; data := data i |}]>
          (<[reader := CReader r'']> h))).
Proof.
  split_and!.
  - intros h this reader opts r e r' Hreader Htag.
    pose proof (withReader_ok h reader (IOs.readTag opts) r _ r' Hreader Htag) as Hrun.
    split_and!.
    + unfold BACnetBoolean.readValue. erewrite bind_throw; [reflexivity|exact Hrun].
    + unfold BACnetStatusFlags.readValue. erewrite bind_throw; [reflexivity|exact Hrun].
    + unfold BACnetObjectId.readValue. erewrite bind_throw; [reflexivity|exact Hrun].
  - intros h this reader opts i r t r' Hthis Hreader Htag Hclass Hnone.
    assert (this ≠ reader) as Hne by (intros ->; congruence).
    unfold BACnetBoolean.readValue.
    erewrite bind_ok; [|eapply withReader_ok; [heap_lookup|exact Htag]].
    erewrite bind_ok; [|apply BooleanProps.boolean_set_tag_run; heap_lookup].
    rewrite Hclass. simpl.
    erewrite bind_throw;
      [|eapply withReader_ok;
          [heap_lookup|unfold IOs.readUInt8; rewrite Hnone; reflexivity]].
    rewrite (list_insert_insert_ne _ reader this) by congruence.
    rewrite list_insert_insert_eq. reflexivity.
  - intros h this reader opts i r t r' Hthis Hreader Htag Hcut.
    assert (this ≠ reader) as Hne by (intros ->; congruence).
    unfold BACnetStatusFlags.readValue.
    erewrite bind_ok; [|eapply withReader_ok; [heap_lookup|exact Htag]].
    erewrite bind_ok; [|apply StatusFlagsProps.status_set_tag_run; heap_lookup].
    destruct (buffer r' !! offset r') as [u|] eqn:Hu.
    + destruct Hcut as [Hcut|Hcut]; [discriminate|].
      erewrite bind_ok;
        [|eapply withReader_ok; [heap_lookup|apply readUInt8_ok, Hu]].
      eexists.
      erewrite bind_throw;
        [|eapply withReader_ok;
            [heap_lookup
            |unfold IOs.readUInt8; cbn [buffer offset]; rewrite Hcut; reflexivity]].
      rewrite list_insert_insert_eq.
      rewrite (list_insert_insert_ne _ reader this) by congruence.
      rewrite list_insert_insert_eq. reflexivity.
    + eexists.
      erewrite bind_throw;
        [|eapply withReader_ok;
            [heap_lookup|unfold IOs.readUInt8; rewrite Hu; reflexivity]].
      rewrite (list_insert_insert_ne _ reader this) by congruence.
      rewrite list_insert_insert_eq. reflexivity.
  - intros h this reader opts i r t r' e r'' Hthis Hreader Htag Hword.
    assert (this ≠ reader) as Hne by (intros ->; congruence).
    unfold BACnetObjectId.readValue.
    erewrite bind_ok; [|eapply withReader_ok; [heap_lookup|exact Htag]].
    erewrite bind_ok; [|apply ObjectIdProps.oid_set_tag_run; heap_lookup].
    erewrite bind_throw; [|eapply withReader_ok; [heap_lookup|exact Hword]].
    rewrite (list_insert_insert_ne _ reader this) by congruence.
    rewrite list_insert_insert_eq. reflexivity.
Qed.

(** The theorem at an empty buffer, at a context-class boolean tag with
    no byte after it, at status flags cut after the unused-bits byte, and
    at an object identifier cut after two bytes of the word. *)
Lemma failed_readValue_keeps_data_witness :
  BACnetBoolean.readValue 0%nat 1%nat None (Examples.boolean_heap true []) =
    (Throw OutOfRange,
     <[1%nat := CReader {| buffer := []; offset := 0 |}]>
       (Examples.boolean_heap true [])) ∧
  BACnetBoolean.readValue 0%nat 1%nat None (Examples.boolean_heap true [0x19]) =
    (Throw OutOfRange,
     <[0%nat := CBoolean {| tag := Some {| num := 1; type := 1; value := Some 1 |};
                            data := true |}]>
       (<[1%nat := CReader {| buffer := [0x19]; offset := 1 |}]>
          (Examples.boolean_heap true [0x19]))) ∧
  (∃ r'',
     BACnetStatusFlags.readValue 0%nat 2%nat None
       (Examples.status_heap Examples.only_inAlarm [0x82; 0x04]) =
       (Throw OutOfRange,
        <[0%nat := CStatusFlags {| tag := Some {| num := 8; type := 0; value := Some 2 |};
                                   data := 1%nat |}]>
          (<[2%nat := CReader r'']>
             (Examples.status_heap Examples.only_inAlarm [0x82; 0x04])))) ∧
  BACnetObjectId.readValue 0%nat 5%nat None
    (Scenarios.ids_and_payload ∅ ∅ [0xC4; 0x02; 0x00]) =
    (Throw OutOfRange,
     <[0%nat := CObjectId {| tag := Some {| num := 12; type := 0; value := Some 4 |};
                             data := 1%nat |}]>
       (<[5%nat := CReader {| buffer := [0xC4; 0x02; 0x00]; offset := 1 |}]>
          (Scenarios.ids_and_payload ∅ ∅ [0xC4; 0x02; 0x00]))).
Proof.
  destruct failed_readValue_keeps_data as (Hnotag & Hbool & Hflags & Hid).
  split_and!.
  - exact (proj1 (Hnotag (Examples.boolean_heap true []) 0%nat 1%nat None
                    {| buffer := []; offset := 0 |} OutOfRange
                    {| buffer := []; offset := 0 |} eq_refl eq_refl)).
  - exact (Hbool (Examples.boolean_heap true [0x19]) 0%nat 1%nat None
             {| tag := None; data := true |} {| buffer := [0x19]; offset := 0 |}
             {| num := 1; type := 1; value := Some 1 |}
             {| buffer := [0x19]; offset := 1 |}
             eq_refl eq_refl eq_refl eq_refl eq_refl).
  - exact (Hflags (Examples.status_heap Examples.only_inAlarm [0x82; 0x04])
             0%nat 2%nat None {| tag := None; data := 1%nat |}
             {| buffer := [0x82; 0x04]; offset := 0 |}
             {| num := 8; type := 0; value := Some 2 |}
             {| buffer := [0x82; 0x04]; offset := 1 |}
             eq_refl eq_refl eq_refl (or_intror eq_refl)).
  - exact (Hid (Scenarios.ids_and_payload ∅ ∅ [0xC4; 0x02; 0x00]) 0%nat 5%nat None
             {| tag := None; data := 1%nat |}
             {| buffer := [0xC4; 0x02; 0x00]; offset := 0 |}
             {| num := 12; type := 0; value := Some 4 |}
             {| buffer := [0xC4; 0x02; 0x00]; offset := 1 |} OutOfRange
             {| buffer := [0xC4; 0x02; 0x00]; offset := 1 |}
             eq_refl eq_refl eq_refl eq_refl).
Defined.

(** X12. A [BACnetObjectId] made without an argument stores type 0 and
    instance 0.  Made with an object that has a [type] and an [instance]
    property it stores a copy of that object with all its properties: the
    check asks only that the two properties are there, not what they
    hold, so [undefined] and [null] pass and properties besides the two
    are kept. *)
Theorem objectId_constructor_presence_check :
  (∀ h : Heap,
     BACnetObjectId.constructor (VPrim PUndefined) h =
       (Ok (S (length h)),
        h ++ [CObject {[ "type" := PNumber 0; "instance" := PNumber 0 ]};
              CObjectId {| tag := None; data := length h |}])) ∧
  (∀ (h : Heap) (l : loc) o pt pi,
     h !! l = Some (CObject o) →
     o !! "type" = Some pt → o !! "instance" = Some pi →
     ∃ h1,
       BACnetObjectId.constructor (VRef l) h = (Ok (S (length h)), h1) ∧
       h1 = h ++ [CObject o; CObjectId {| tag := None; data := length h |}] ∧
       BACnetObjectId.getValue (S (length h)) h1 =
         (Ok (VRef (length h1)), h1 ++ [CObject o])).
Proof.
  split.
  - intros h. unfold BACnetObjectId.constructor. cbn [lodash.isUndefined].
    erewrite bind_ok; [|reflexivity].
    unfold alloc. rewrite length_app, <- app_assoc. cbn [length app].
    rewrite Nat.add_1_r. reflexivity.
  - intros h l o pt pi Hl Ht Hi. eexists. split; [|split; [reflexivity|]].
    + apply ObjectIdProps.oid_constructor_accepts; [exact Hl|eauto..].
    + eapply ObjectIdProps.oid_getValue_run.
      * rewrite lookup_app_r by lia.
        replace (S (length h) - length h)%nat with 1%nat by lia. reflexivity.
      * cbn [data]. apply list_lookup_middle. reflexivity.
Qed.

(** The theorem at a payload whose [type] is [undefined] and whose
    [instance] is [null], with a property [name] besides. *)
Lemma objectId_constructor_presence_check_witness :
  ∃ h1,
    BACnetObjectId.constructor (VRef 2%nat)
      (Scenarios.ids_and_payload Scenarios.odd_identifier ∅ []) = (Ok 8%nat, h1) ∧
    h1 = Scenarios.ids_and_payload Scenarios.odd_identifier ∅ []
         ++ [CObject Scenarios.odd_identifier;
             CObjectId {| tag := None; data := 7%nat |}] ∧
    BACnetObjectId.getValue 8%nat h1 =
      (Ok (VRef (length h1)), h1 ++ [CObject Scenarios.odd_identifier]).
Proof.
  exact (proj2 objectId_constructor_presence_check
           (Scenarios.ids_and_payload Scenarios.odd_identifier ∅ []) 2%nat
           Scenarios.odd_identifier PUndefined PNull eq_refl eq_refl eq_refl).
Defined.

End StateProps.
